(** * Mini Resume Management: a shallow embedding of [main.py]

    The service keeps candidate records in a module-level dictionary, hands
    out ids from a module-level counter and stores one resume file per
    record under [uploads/].  This development embeds the helper functions,
    the pydantic validators and the three stateful handlers, and states the
    documented properties of the service over that embedding.

    Conventions.
    - A Python [str] is a list of Unicode code points ([str := list N]).
    - Python [int] is [Z]; [float] is a binary64 primitive float.
    - The module globals [CANDIDATES] and [NEXT_ID] and the files on disk are
      the fields of an explicit [state], threaded through the handlers.
    - Paths are POSIX paths ([os.path] is [posixpath]); a file is known by
      the path string the service uses for it.
    - A handler runs from start to end before the next one starts, unless
      said otherwise; the one place where a handler can be suspended, the
      [await] in [upload_candidate], separates [upload_begin] from
      [upload_resume].
    - What the interpreter and the operating system decide (the Unicode
      tables beyond ASCII, the ISO date parser, the clock, whether a write or
      a removal succeeds) is taken as input: the tables in the class
      [Runtime], the per-request facts in the records [upload_io] and
      [delete_io]. *)

From Stdlib Require Import ZArith NArith Ascii String Decimal PrimFloat.
From Stdlib Require DecimalZ.
From stdpp Require Import gmap list sorting.

Local Open Scope Z_scope.

(** ** Text *)

Abbreviation char := N.
Abbreviation str := (list char).

(** An ASCII literal as a [str]. *)
Fixpoint s2u (s : string) : str :=
  match s with
  | EmptyString => []
  | String a r => N_of_ascii a :: s2u r
  end.

Definition is_ascii (c : char) : bool := (c <? 128)%N.

Definition in_range (lo hi c : char) : bool := ((lo <=? c) && (c <=? hi))%N.

Definition ascii_isdigit (c : char) : bool := in_range 48%N 57%N c.
Definition ascii_isupper (c : char) : bool := in_range 65%N 90%N c.
Definition ascii_islower (c : char) : bool := in_range 97%N 122%N c.

(** The ASCII code points for which [str.isspace] holds:
    TAB, LF, VT, FF, CR, the four separators FS..US and SPACE. *)
Definition ascii_isspace (c : char) : bool :=
  in_range 9%N 13%N c || in_range 28%N 31%N c || (c =? 32)%N.

Definition ascii_lower (c : char) : char :=
  if ascii_isupper c then (c + 32)%N else c.

Record date := mkdate { year : Z; month : Z; day : Z }.

(** What the Python runtime supplies beyond ASCII, and its date parser.
    - [uni_isdecimal]: the code points above 127 in the class [\d] of [re]
      on [str] patterns;
    - [uni_isspace]: the code points above 127 removed by [str.strip()];
    - [uni_lower]: [str.lower] on a string with a non-ASCII code point (the
      mapping may change the length and depends on context);
    - [date_fromisoformat]: [date.fromisoformat], [None] for [ValueError]. *)
Class Runtime := {
  uni_isdecimal : char -> bool;
  uni_isspace : char -> bool;
  uni_lower : str -> str;
  date_fromisoformat : str -> option date
}.

Section Text.
Context `{RT : Runtime}.

(** [\d] and [\D] of [re]. *)
Definition re_digit (c : char) : bool :=
  if is_ascii c then ascii_isdigit c else uni_isdecimal c.
Definition re_nondigit (c : char) : bool := negb (re_digit c).

(** [str.isspace] of one code point. *)
Definition isspace (c : char) : bool :=
  if is_ascii c then ascii_isspace c else uni_isspace c.

(** [s.lower()]. *)
Definition lower (s : str) : str :=
  if forallb is_ascii s then map ascii_lower s else uni_lower s.

End Text.

(** [re.sub(cls, repl, s)] for a pattern [cls] that is one character class:
    every matching character is replaced on its own. *)
Fixpoint re_sub_class (cls : char -> bool) (repl s : str) : str :=
  match s with
  | [] => []
  | c :: r =>
      if cls c then repl ++ re_sub_class cls repl r
      else c :: re_sub_class cls repl r
  end.

(** [re.sub(cls+, repl, s)]: every maximal run of matching characters is
    replaced by one [repl]; [in_run] records that the previous character
    belonged to the run being replaced. *)
Fixpoint re_sub_run (cls : char -> bool) (repl : str) (in_run : bool) (s : str) : str :=
  match s with
  | [] => []
  | c :: r =>
      if cls c then
        (if in_run then [] else repl) ++ re_sub_run cls repl true r
      else c :: re_sub_run cls repl false r
  end.

Definition re_sub_class_plus (cls : char -> bool) (repl s : str) : str :=
  re_sub_run cls repl false s.

(** [s.lstrip(..)], [s.rstrip(..)], [s.strip(..)] for the set of characters
    satisfying [p]. *)
Fixpoint lstrip (p : char -> bool) (s : str) : str :=
  match s with
  | [] => []
  | c :: r => if p c then lstrip p r else s
  end.

Definition rstrip (p : char -> bool) (s : str) : str := rev (lstrip p (rev s)).

Definition strip (p : char -> bool) (s : str) : str := rstrip p (lstrip p s).

(** [s.split(sep)] for a one-character separator: never the empty list. *)
Fixpoint str_split (sep : char) (s : str) : list str :=
  match s with
  | [] => [[]]
  | c :: r =>
      if (c =? sep)%N then [] :: str_split sep r
      else match str_split sep r with
           | [] => [[c]]
           | p :: ps => (c :: p) :: ps
           end
  end.

(** [sep.join(l)] for a one-character separator. *)
Fixpoint str_join (sep : char) (l : list str) : str :=
  match l with
  | [] => []
  | [x] => x
  | x :: r => x ++ sep :: str_join sep r
  end.

(** [s.rfind(c)]: the index of the last [c], [-1] when there is none. *)
Fixpoint rfind_from (c : char) (s : str) (i : Z) (found : Z) : Z :=
  match s with
  | [] => found
  | x :: r => rfind_from c r (i + 1) (if (x =? c)%N then i else found)
  end.

Definition rfind (s : str) (c : char) : Z := rfind_from c s 0 (-1).

(** The slices [s[:i]] and [s[i:]] for [0 <= i]. *)
Definition slice_to (s : str) (i : Z) : str := take (Z.to_nat i) s.
Definition slice_from (s : str) (i : Z) : str := drop (Z.to_nat i) s.

(** [str(n)] of a Python [int]. *)
Fixpoint uint_digits (d : Decimal.uint) : str :=
  match d with
  | Nil => []
  | D0 d => 48%N :: uint_digits d
  | D1 d => 49%N :: uint_digits d
  | D2 d => 50%N :: uint_digits d
  | D3 d => 51%N :: uint_digits d
  | D4 d => 52%N :: uint_digits d
  | D5 d => 53%N :: uint_digits d
  | D6 d => 54%N :: uint_digits d
  | D7 d => 55%N :: uint_digits d
  | D8 d => 56%N :: uint_digits d
  | D9 d => 57%N :: uint_digits d
  end.

Definition str_of_int (n : Z) : str :=
  match Z.to_int n with
  | Decimal.Pos d => uint_digits d
  | Decimal.Neg d => 45%N :: uint_digits d
  end.

(** ** Helpers of [main.py] *)

Definition UPLOAD_DIR : str := s2u "uploads".

Definition ALLOWED_EXTENSIONS : list str := [s2u ".pdf"; s2u ".doc"; s2u ".docx"].

(** The class [[a-zA-Z0-9._-]] and its complement [[^a-zA-Z0-9._-]]. *)
Definition filename_char (c : char) : bool :=
  ascii_islower c || ascii_isupper c || ascii_isdigit c
  || (c =? 46)%N || (c =? 95)%N || (c =? 45)%N.

Definition not_filename_char (c : char) : bool := negb (filename_char c).

Definition is_underscore (c : char) : bool := (c =? 95)%N.

(** [x or d] on strings. *)
Definition str_or (x d : str) : str :=
  match x with
  | [] => d
  | _ => x
  end.

(** [posixpath.splitext]: the extension starts at the last dot of the last
    path component, unless that component has only leading dots before it.
    [skip_leading_dots] is the [while filenameIndex < dotIndex] loop, run for
    the [dotIndex - filenameIndex] indices it can visit. *)
Fixpoint skip_leading_dots (p : str) (dotIndex filenameIndex : Z) (steps : nat) : str * str :=
  match steps with
  | O => (p, [])
  | S k =>
      if bool_decide (p !! Z.to_nat filenameIndex = Some 46%N)
      then skip_leading_dots p dotIndex (filenameIndex + 1) k
      else (slice_to p dotIndex, slice_from p dotIndex)
  end.

Definition splitext (p : str) : str * str :=
  let sepIndex := rfind p 47%N in
  let dotIndex := rfind p 46%N in
  if dotIndex >? sepIndex then
    let filenameIndex := sepIndex + 1 in
    skip_leading_dots p dotIndex filenameIndex (Z.to_nat (dotIndex - filenameIndex))
  else (p, []).

Definition startswith_sep (s : str) : bool :=
  match s with
  | c :: _ => (c =? 47)%N
  | [] => false
  end.

Definition endswith_sep (s : str) : bool := startswith_sep (rev s).

(** [posixpath.join(a, b)]. *)
Definition path_join (a b : str) : str :=
  if startswith_sep b then b
  else if bool_decide (a = []) || endswith_sep a then a ++ b
  else a ++ 47%N :: b.

(** [posixpath.basename]. *)
Definition basename (p : str) : str := slice_from p (rfind p 47%N + 1).

(** The files the service can see, keyed by the path it uses for them. *)
Abbreviation bytes := (list Byte.byte).
Abbreviation filesystem := (gmap str bytes).

(** [os.path.exists]: the empty path names nothing. *)
Definition path_exists (fs : filesystem) (path : str) : bool :=
  match path with
  | [] => false
  | _ => bool_decide (is_Some (fs !! path))
  end.

Section Helpers.
Context `{RT : Runtime}.

Definition _normalize_phone (phone : str) : str :=
  re_sub_class re_nondigit [] phone.

Definition _safe_filename (name : str) : str :=
  let name := strip is_underscore (re_sub_class_plus not_filename_char (s2u "_") name) in
  str_or name (s2u "resume").

(** The value of [name] in [_safe_filename] before [or "resume"] applies. *)
Definition sanitized_and_trimmed (name : str) : str :=
  strip is_underscore (re_sub_class_plus not_filename_char (s2u "_") name).

(** The [for s in skills] loop of [_parse_skills]. *)
Fixpoint unique_loop (skills : list str) (seen : gset str) (unique : list str) : list str :=
  match skills with
  | [] => unique
  | s :: rest =>
      let key := lower s in
      if decide (key ∈ seen) then unique_loop rest seen unique
      else unique_loop rest ({[key]} ∪ seen) (unique ++ [s])
  end.

Definition nonempty (s : str) : bool :=
  match s with
  | [] => false
  | _ => true
  end.

Definition _parse_skills (skills_raw : str) : list str :=
  let skills := map (strip isspace) (str_split 44%N skills_raw) in
  let skills := filter (fun s => nonempty s = true) skills in
  unique_loop skills ∅ [].

(** The pieces [_parse_skills] works on: the parts between commas, each
    stripped of surrounding whitespace, the empty ones dropped. *)
Definition skill_pieces (skills_raw : str) : list str :=
  filter (fun s => nonempty s = true)
    (map (strip isspace) (str_split 44%N skills_raw)).

(** Deduplication in the words of the documentation: an element stays when
    no earlier element has the same lower-case form; the first one seen
    stays as it was written, and the order is kept. *)
Fixpoint first_seen (skills : list str) : list str :=
  match skills with
  | [] => []
  | s :: rest => s :: filter (fun x => lower x <> lower s) (first_seen rest)
  end.

Definition _get_unique_save_path (fs : filesystem) (candidate_id : Z) (original_filename : str) : str :=
  let safe_name := _safe_filename original_filename in
  let '(base, ext) := splitext safe_name in
  let path := path_join UPLOAD_DIR safe_name in
  if negb (path_exists fs path) then path
  else
    let new_name := base ++ s2u "_(" ++ str_of_int candidate_id ++ s2u ")" ++ ext in
    path_join UPLOAD_DIR new_name.

(** The two candidates of [_get_unique_save_path], in the words of its
    comment: the original (safe) name under the upload directory, and the
    same name with [_(id)] added before the extension. *)
Definition preferred_path (original_filename : str) : str :=
  s2u "uploads/" ++ _safe_filename original_filename.

Definition suffixed_path (candidate_id : Z) (original_filename : str) : str :=
  s2u "uploads/" ++ (splitext (_safe_filename original_filename)).1
    ++ s2u "_(" ++ str_of_int candidate_id ++ s2u ")"
    ++ (splitext (_safe_filename original_filename)).2.

End Helpers.

(** ** Rejections

    The handlers report failures through exception messages; the kinds below
    name them.  [UnsupportedFileType e] is the 415 answer whose detail ends
    in [Got: e]; [InvalidDateFormat] is "DOB must be in YYYY-MM-DD format";
    [FutureDate], [InvalidPhone] and [EmptySkills] are the [ValueError]s of
    the three field validators ([EmptySkills] also stands for the
    [min_length=1] rule of the [Skills] list); [OutOfRange f] is a violated
    [Field] bound of field [f]; [NotFound] is "Candidate not found". *)

Inductive field :=
  | Full_Name_field
  | Address_field
  | Qualification_field
  | Graduation_Year_field
  | Years_of_Experience_field.

Inductive rejection :=
  | UnsupportedFileType (ext : str)
  | InvalidDateFormat
  | FutureDate
  | InvalidPhone
  | EmptySkills
  | OutOfRange (f : field)
  | NotFound.

#[global] Instance field_eq_dec : EqDecision field.
Proof. solve_decision. Defined.

#[global] Instance rejection_eq_dec : EqDecision rejection.
Proof. solve_decision. Defined.

(** ** The models [CandidateBase] and [CandidateOut] *)

(** [date] values compare as the tuples (year, month, day). *)
Definition date_gt (a b : date) : bool :=
  (year a >? year b)
  || ((year a =? year b) && ((month a >? month b)
      || ((month a =? month b) && (day a >? day b)))).

Record CandidateBase := {
  Full_Name : str;
  DOB : date;
  Contact_Number : str;
  Address : str;
  Qualification : str;
  Graduation_Year : Z;
  Years_of_Experience : float;
  Skills : list str
}.

(** A [datetime] as its number of microseconds since the epoch. *)
Abbreviation datetime := Z.

Record CandidateOut := {
  out_base : CandidateBase;
  out_id : Z;
  resume_filename : str;
  resume_path : str;
  created_at : datetime
}.

Definition len {A} (l : list A) : Z := Z.of_nat (length l).

(** A [str] field declared with [Field(..., min_length=lo, max_length=hi)]. *)
Definition str_field (f : field) (lo hi : Z) (v : str) : rejection + str :=
  if (lo <=? len v) && (len v <=? hi) then inr v else inl (OutOfRange f).

(** [Graduation_Year: int = Field(..., ge=1950, le=2100)]. *)
Definition year_field (v : Z) : rejection + Z :=
  if (1950 <=? v) && (v <=? 2100) then inr v
  else inl (OutOfRange Graduation_Year_field).

(** [Years_of_Experience: float = Field(..., ge=0, le=60)]. *)
Definition experience_field (v : float) : rejection + float :=
  if PrimFloat.leb 0%float v && PrimFloat.leb v 60%float then inr v
  else inl (OutOfRange Years_of_Experience_field).

Definition validate_dob (today v : date) : rejection + date :=
  if date_gt v today then inl FutureDate else inr v.

Section Validators.
Context `{RT : Runtime}.

Definition validate_contact_number (v : str) : rejection + str :=
  let digits := _normalize_phone v in
  if (len digits <? 10) || (len digits >? 15) then inl InvalidPhone
  else inr digits.

Definition validate_skills (v : list str) : rejection + list str :=
  let cleaned :=
    map (strip isspace)
        (filter (fun s => nonempty s && nonempty (strip isspace s) = true) v) in
  match cleaned with
  | [] => inl EmptySkills
  | _ => inr cleaned
  end.

(** What [validate_skills] keeps: a skill that is not empty and has no
    surrounding whitespace left. *)
Definition clean_skill (s : str) : Prop := s <> [] /\ strip isspace s = s.

(** [Skills: List[str] = Field(..., min_length=1)], then [validate_skills]. *)
Definition skills_field (v : list str) : rejection + list str :=
  if 1 <=? len v then validate_skills v else inl EmptySkills.

Definition errors_of {A} (r : rejection + A) : list rejection :=
  match r with
  | inl e => [e]
  | inr _ => []
  end.

(** The failures of the eight fields, in field order.  [today] is the value
    of [date.today()] seen by [validate_dob]. *)
Definition field_errors (today : date)
    (full_name : str) (dob : date) (contact_number address qualification : str)
    (graduation_year : Z) (years_of_experience : float) (skills : list str)
    : list rejection :=
  errors_of (str_field Full_Name_field 2 100 full_name)
  ++ errors_of (validate_dob today dob)
  ++ errors_of (validate_contact_number contact_number)
  ++ errors_of (str_field Address_field 5 300 address)
  ++ errors_of (str_field Qualification_field 2 120 qualification)
  ++ errors_of (year_field graduation_year)
  ++ errors_of (experience_field years_of_experience)
  ++ errors_of (skills_field skills).

(** Constructing a [CandidateBase]: every field is checked, the failures
    are reported together, and the model exists only when there is none. *)
Definition new_CandidateBase (today : date)
    (full_name : str) (dob : date) (contact_number address qualification : str)
    (graduation_year : Z) (years_of_experience : float) (skills : list str)
    : list rejection + CandidateBase :=
  match str_field Full_Name_field 2 100 full_name,
        validate_dob today dob,
        validate_contact_number contact_number,
        str_field Address_field 5 300 address,
        str_field Qualification_field 2 120 qualification,
        year_field graduation_year,
        experience_field years_of_experience,
        skills_field skills with
  | inr v1, inr v2, inr v3, inr v4, inr v5, inr v6, inr v7, inr v8 =>
      inr {| Full_Name := v1; DOB := v2; Contact_Number := v3; Address := v4;
             Qualification := v5; Graduation_Year := v6;
             Years_of_Experience := v7; Skills := v8 |}
  | _, _, _, _, _, _, _, _ =>
      inl (field_errors today full_name dob contact_number address
             qualification graduation_year years_of_experience skills)
  end.

(** Constructing a [CandidateOut] from [base.model_dump()] and the four
    extra fields: the inherited fields are validated again. *)
Definition new_CandidateOut (today : date) (id : Z) (base : CandidateBase)
    (filename path : str) (created : datetime)
    : list rejection + CandidateOut :=
  match new_CandidateBase today (Full_Name base) (DOB base) (Contact_Number base)
          (Address base) (Qualification base) (Graduation_Year base)
          (Years_of_Experience base) (Skills base) with
  | inl errs => inl errs
  | inr b =>
      inr {| out_base := b; out_id := id; resume_filename := filename;
             resume_path := path; created_at := created |}
  end.

End Validators.

(** ** The store

    [CANDIDATES] is a Python [dict]: at most one entry per key, kept in
    insertion order (which [list_candidates] observes).  It is a list of
    items; [dict_set] overwrites in place or appends, [dict_pop] answers the
    entry of the key and leaves no entry for it. *)

Section Dict.
Context {V : Type}.

Abbreviation dict := (list (Z * V)).

Fixpoint dict_get (k : Z) (d : dict) : option V :=
  match d with
  | [] => None
  | (k', v) :: r => if k' =? k then Some v else dict_get k r
  end.

Fixpoint dict_set (k : Z) (v : V) (d : dict) : dict :=
  match d with
  | [] => [(k, v)]
  | (k', v') :: r => if k' =? k then (k, v) :: r else (k', v') :: dict_set k v r
  end.

Fixpoint dict_remove (k : Z) (d : dict) : dict :=
  match d with
  | [] => []
  | (k', v) :: r => if k' =? k then dict_remove k r else (k', v) :: dict_remove k r
  end.

(** [d.pop(k, None)]. *)
Definition dict_pop (k : Z) (d : dict) : option V * dict :=
  (dict_get k d, dict_remove k d).

Definition dict_values (d : dict) : list V := map snd d.

End Dict.

Record state := {
  CANDIDATES : list (Z * CandidateOut);
  NEXT_ID : Z;
  files : filesystem
}.

(** The module as loaded: no candidate, the first id is 1. *)
Definition initial_state (fs : filesystem) : state :=
  {| CANDIDATES := []; NEXT_ID := 1; files := fs |}.

(** Ids are handed out from 1 upwards: every stored record sits under its
    own id, which is below the counter, and no id is stored twice. *)
Definition ids_allocated (st : state) : Prop :=
  NoDup (map fst (CANDIDATES st))
  /\ 1 <= NEXT_ID st
  /\ forall k c, (k, c) ∈ CANDIDATES st -> out_id c = k /\ 1 <= k < NEXT_ID st.

(** ** Requests, answers and the outside world *)

Record upload_form := {
  form_Full_Name : str;
  form_DOB : str;
  form_Contact_Number : str;
  form_Address : str;
  form_Qualification : str;
  form_Graduation_Year : Z;
  form_Years_of_Experience : float;
  form_Skills : str;
  Resume_filename : option str
}.

(** What [open(stored_path, "wb")] followed by [f.write(content)] does:
    it succeeds, or [open] raises and nothing is created, or the file has
    been created (or truncated) and the write raises, leaving [partial]. *)
Inductive write_outcome :=
  | Written
  | OpenRaises
  | WriteRaises (partial : bytes).

(** What one run of [upload_candidate] is told by the outside world:
    [date.today()] when [CandidateBase] is built and again when
    [CandidateOut] is built, [datetime.utcnow()], the result of
    [await Resume.read()] ([None] when it raises), and the fate of the
    write. *)
Record upload_io := {
  today_base : date;
  today_out : date;
  utcnow : datetime;
  Resume_read : option bytes;
  file_write : write_outcome
}.

(** Whether [os.remove] raises during one run of [delete_candidate]. *)
Record delete_io := { remove_raises : bool }.

(** An answer: the value returned, an [HTTPException] with its status code
    and the kinds it reports, or an exception no handler catches. *)
Inductive answer (A : Type) :=
  | Returned (a : A)
  | HTTPException (status_code : Z) (detail : list rejection)
  | Uncaught.
Arguments Returned {A} a.
Arguments HTTPException {A} status_code detail.
Arguments Uncaught {A}.

Definition filename_or (x : option str) (d : str) : str :=
  match x with
  | None => d
  | Some s => str_or s d
  end.

Definition set_NEXT_ID (n : Z) (st : state) : state :=
  {| CANDIDATES := CANDIDATES st; NEXT_ID := n; files := files st |}.
Definition set_CANDIDATES (d : list (Z * CandidateOut)) (st : state) : state :=
  {| CANDIDATES := d; NEXT_ID := NEXT_ID st; files := files st |}.
Definition set_files (fs : filesystem) (st : state) : state :=
  {| CANDIDATES := CANDIDATES st; NEXT_ID := NEXT_ID st; files := fs |}.

(** What a suspended [upload_candidate] holds in its local variables
    [candidate_id], [stored_path] and [base]. *)
Record pending_upload := {
  pending_id : Z;
  pending_path : str;
  pending_base : CandidateBase
}.

Section Handlers.
Context `{RT : Runtime}.

(** The value of [stored_path] in [upload_candidate] run from [st]. *)
Definition stored_path_of (filename : option str) (st : state) : str :=
  _get_unique_save_path (files st) (NEXT_ID st)
    (filename_or filename (s2u "resume")).

(** The tail of [upload_candidate], from the id allocation on. *)
Definition store_candidate (io : upload_io) (base : CandidateBase)
    (filename : option str) (st : state) : state * answer CandidateOut :=
  let candidate_id := NEXT_ID st in
  let st := set_NEXT_ID (NEXT_ID st + 1) st in
  let original_name := filename_or filename (s2u "resume") in
  let stored_path := _get_unique_save_path (files st) candidate_id original_name in
  match Resume_read io with
  | None => (st, Uncaught)
  | Some content =>
      match file_write io with
      | OpenRaises => (st, Uncaught)
      | WriteRaises partial =>
          (set_files (<[stored_path := partial]> (files st)) st, Uncaught)
      | Written =>
          let st := set_files (<[stored_path := content]> (files st)) st in
          match new_CandidateOut (today_out io) candidate_id base
                  (basename stored_path) stored_path (utcnow io) with
          | inl _ => (st, Uncaught)
          | inr candidate =>
              (set_CANDIDATES (dict_set candidate_id candidate (CANDIDATES st)) st,
               Returned candidate)
          end
      end
  end.

(** The value of [ext] in [upload_candidate]. *)
Definition Resume_ext (form : upload_form) : str :=
  lower (splitext (filename_or (Resume_filename form) [])).2.

Definition upload_candidate (io : upload_io) (form : upload_form) (st : state)
    : state * answer CandidateOut :=
  let ext := Resume_ext form in
  if negb (bool_decide (ext ∈ ALLOWED_EXTENSIONS)) then
    (st, HTTPException 415 [UnsupportedFileType (str_or ext (s2u "unknown"))])
  else
    match date_fromisoformat (form_DOB form) with
    | None => (st, HTTPException 422 [InvalidDateFormat])
    | Some dob_date =>
        let skills_list := _parse_skills (form_Skills form) in
        match new_CandidateBase (today_base io) (form_Full_Name form) dob_date
                (form_Contact_Number form) (form_Address form)
                (form_Qualification form) (form_Graduation_Year form)
                (form_Years_of_Experience form) skills_list with
        | inl errs => (st, HTTPException 422 errs)
        | inr base => store_candidate io base (Resume_filename form) st
        end
    end.

(** *** The suspension inside [upload_candidate]

    [upload_candidate] is a coroutine with one [await], at [Resume.read()].
    Up to there it has checked the request, taken its id and resolved its
    path; other requests may run before it goes on.  [upload_begin] is the
    handler up to the [await], [upload_resume] the rest of it, run in the
    state it finds when it is resumed. *)

Definition upload_begin (io : upload_io) (form : upload_form) (st : state)
    : state * (answer CandidateOut + pending_upload) :=
  let ext := Resume_ext form in
  if negb (bool_decide (ext ∈ ALLOWED_EXTENSIONS)) then
    (st, inl (HTTPException 415 [UnsupportedFileType (str_or ext (s2u "unknown"))]))
  else
    match date_fromisoformat (form_DOB form) with
    | None => (st, inl (HTTPException 422 [InvalidDateFormat]))
    | Some dob_date =>
        let skills_list := _parse_skills (form_Skills form) in
        match new_CandidateBase (today_base io) (form_Full_Name form) dob_date
                (form_Contact_Number form) (form_Address form)
                (form_Qualification form) (form_Graduation_Year form)
                (form_Years_of_Experience form) skills_list with
        | inl errs => (st, inl (HTTPException 422 errs))
        | inr base =>
            let candidate_id := NEXT_ID st in
            let st := set_NEXT_ID (NEXT_ID st + 1) st in
            let original_name :=
              filename_or (Resume_filename form) (s2u "resume") in
            let stored_path :=
              _get_unique_save_path (files st) candidate_id original_name in
            (st, inr {| pending_id := candidate_id;
                        pending_path := stored_path;
                        pending_base := base |})
        end
    end.

Definition upload_resume (io : upload_io) (p : pending_upload) (st : state)
    : state * answer CandidateOut :=
  match Resume_read io with
  | None => (st, Uncaught)
  | Some content =>
      match file_write io with
      | OpenRaises => (st, Uncaught)
      | WriteRaises partial =>
          (set_files (<[pending_path p := partial]> (files st)) st, Uncaught)
      | Written =>
          let st := set_files (<[pending_path p := content]> (files st)) st in
          match new_CandidateOut (today_out io) (pending_id p) (pending_base p)
                  (basename (pending_path p)) (pending_path p) (utcnow io) with
          | inl _ => (st, Uncaught)
          | inr candidate =>
              (set_CANDIDATES
                 (dict_set (pending_id p) candidate (CANDIDATES st)) st,
               Returned candidate)
          end
      end
  end.

(** [sort(key=lambda c: c.created_at, reverse=True)]: descending and stable.
    [insert_desc c l] puts [c], which came before the elements of [l], in
    front of the first element not created after it. *)
Fixpoint insert_desc (c : CandidateOut) (l : list CandidateOut) : list CandidateOut :=
  match l with
  | [] => [c]
  | x :: r => if created_at x >? created_at c then x :: insert_desc c r else c :: l
  end.

Definition sort_created_desc (l : list CandidateOut) : list CandidateOut :=
  foldr insert_desc [] l.

Definition has_skill (s : str) (c : CandidateOut) : bool :=
  existsb (fun x => bool_decide (lower x = s)) (Skills (out_base c)).

Definition list_candidates (skill : option str) (Min_Experience : option float)
    (Graduation_Year_q : option Z) (st : state) : list CandidateOut :=
  let results := dict_values (CANDIDATES st) in
  let results :=
    match skill with
    | Some sk =>
        if nonempty sk then
          let s := lower (strip isspace sk) in
          filter (fun c => has_skill s c = true) results
        else results
    | None => results
    end in
  let results :=
    match Min_Experience with
    | Some m =>
        filter (fun c => PrimFloat.leb m (Years_of_Experience (out_base c)) = true) results
    | None => results
    end in
  let results :=
    match Graduation_Year_q with
    | Some y => filter (fun c => Graduation_Year (out_base c) = y) results
    | None => results
    end in
  sort_created_desc results.

Definition get_candidate (candidate_id : Z) (st : state) : answer CandidateOut :=
  match dict_get candidate_id (CANDIDATES st) with
  | None => HTTPException 404 [NotFound]
  | Some candidate => Returned candidate
  end.

(** The answer of a successful deletion, [{"detail": "deleted successfully"}]. *)
Inductive deleted := deleted_successfully.

Definition delete_candidate (io : delete_io) (candidate_id : Z) (st : state)
    : state * answer deleted :=
  let '(popped, rest) := dict_pop candidate_id (CANDIDATES st) in
  let st := set_CANDIDATES rest st in
  match popped with
  | None => (st, HTTPException 404 [NotFound])
  | Some candidate =>
      let st :=
        if nonempty (resume_path candidate) && path_exists (files st) (resume_path candidate)
        then
          if remove_raises io then st
          else set_files (delete (resume_path candidate) (files st)) st
        else st in
      (st, Returned deleted_successfully)
  end.

(** One request that can change the state, and the states the service can
    be in: those reached from a fresh start by uploads and deletions, each
    handled from start to end (an upload is resumed before any other request
    runs). *)
Inductive step : state -> state -> Prop :=
  | step_upload io form st : step st (upload_candidate io form st).1
  | step_delete io candidate_id st : step st (delete_candidate io candidate_id st).1.

Definition reachable (st : state) : Prop :=
  exists fs, rtc step (initial_state fs) st.

End Handlers.

(** ** A runtime for running examples

    [date.fromisoformat] restricted to the form [YYYY-MM-DD], and no digit,
    space or case mapping beyond ASCII.  On ASCII input the helpers never
    consult the Unicode tables, so the examples below evaluate the same
    under every runtime that reads [YYYY-MM-DD] this way. *)

Definition digit_value (c : char) : option Z :=
  if ascii_isdigit c then Some (Z.of_N c - 48) else None.

Definition is_leap (y : Z) : bool :=
  (y mod 4 =? 0) && (negb (y mod 100 =? 0) || (y mod 400 =? 0)).

Definition days_in_month (y m : Z) : Z :=
  if m =? 2 then (if is_leap y then 29 else 28)
  else if (m =? 4) || (m =? 6) || (m =? 9) || (m =? 11) then 30
  else 31.

Definition number2 (a b : char) : option Z :=
  match digit_value a, digit_value b with
  | Some x, Some y => Some (10 * x + y)
  | _, _ => None
  end.

Definition parse_ymd (s : str) : option date :=
  match s with
  | [y1; y2; y3; y4; h1; m1; m2; h2; d1; d2] =>
      match number2 y1 y2, number2 y3 y4, number2 m1 m2, number2 d1 d2 with
      | Some yh, Some yl, Some m, Some d =>
          let y := 100 * yh + yl in
          if (h1 =? 45)%N && (h2 =? 45)%N && (1 <=? y) && (1 <=? m) && (m <=? 12)
             && (1 <=? d) && (d <=? days_in_month y m)
          then Some (mkdate y m d)
          else None
      | _, _, _, _ => None
      end
  | _ => None
  end.

Definition ascii_runtime : Runtime :=
  {| uni_isdecimal := fun _ => false;
     uni_isspace := fun _ => false;
     uni_lower := fun s => s;
     date_fromisoformat := parse_ymd |}.

(** *** A sample request

    One well-formed submission with a resume called "cv.pdf", sent when the
    clock reads 15 January 2026 and every file operation succeeds. *)

Definition sample_form : upload_form :=
  {| form_Full_Name := s2u "Asha Menon";
     form_DOB := s2u "1999-04-12";
     form_Contact_Number := s2u "+91 98765 43210";
     form_Address := s2u "12 Lake Road, Kochi";
     form_Qualification := s2u "B.Tech";
     form_Graduation_Year := 2021;
     form_Years_of_Experience := 2.5%float;
     form_Skills := s2u "Python, python, SQL";
     Resume_filename := Some (s2u "cv.pdf") |}.

(** The same submission with the resume called "resume.txt". *)
Definition sample_txt_form : upload_form :=
  {| form_Full_Name := form_Full_Name sample_form;
     form_DOB := form_DOB sample_form;
     form_Contact_Number := form_Contact_Number sample_form;
     form_Address := form_Address sample_form;
     form_Qualification := form_Qualification sample_form;
     form_Graduation_Year := form_Graduation_Year sample_form;
     form_Years_of_Experience := form_Years_of_Experience sample_form;
     form_Skills := form_Skills sample_form;
     Resume_filename := Some (s2u "resume.txt") |}.

Definition sample_io : upload_io :=
  {| today_base := mkdate 2026 1 15;
     today_out := mkdate 2026 1 15;
     utcnow := 1768471200000000;
     Resume_read := Some [Byte.x25; Byte.x50; Byte.x44; Byte.x46];
     file_write := Written |}.

Definition returned {A} (a : answer A) : option A :=
  match a with
  | Returned x => Some x
  | _ => None
  end.

(** The sample submitted twice in a row to a freshly started service with an
    empty upload directory. *)
Definition first_upload : state * answer CandidateOut :=
  @upload_candidate ascii_runtime sample_io sample_form (initial_state ∅).

Definition second_upload : state * answer CandidateOut :=
  @upload_candidate ascii_runtime sample_io sample_form first_upload.1.

(** The sample with other skills, another resume name, another date. *)
Definition with_Skills (skills : str) (form : upload_form) : upload_form :=
  {| form_Full_Name := form_Full_Name form;
     form_DOB := form_DOB form;
     form_Contact_Number := form_Contact_Number form;
     form_Address := form_Address form;
     form_Qualification := form_Qualification form;
     form_Graduation_Year := form_Graduation_Year form;
     form_Years_of_Experience := form_Years_of_Experience form;
     form_Skills := skills;
     Resume_filename := Resume_filename form |}.

Definition with_Resume (filename : option str) (form : upload_form) : upload_form :=
  {| form_Full_Name := form_Full_Name form;
     form_DOB := form_DOB form;
     form_Contact_Number := form_Contact_Number form;
     form_Address := form_Address form;
     form_Qualification := form_Qualification form;
     form_Graduation_Year := form_Graduation_Year form;
     form_Years_of_Experience := form_Years_of_Experience form;
     form_Skills := form_Skills form;
     Resume_filename := filename |}.

Definition with_DOB (dob : str) (form : upload_form) : upload_form :=
  {| form_Full_Name := form_Full_Name form;
     form_DOB := dob;
     form_Contact_Number := form_Contact_Number form;
     form_Address := form_Address form;
     form_Qualification := form_Qualification form;
     form_Graduation_Year := form_Graduation_Year form;
     form_Years_of_Experience := form_Years_of_Experience form;
     form_Skills := form_Skills form;
     Resume_filename := Resume_filename form |}.

(** A runtime that knows one block of decimal digits beyond ASCII: the
    Arabic-Indic digits U+0660 to U+0669, which are in CPython's class [\d]. *)
Definition arabic_indic_runtime : Runtime :=
  {| uni_isdecimal := in_range 1632%N 1641%N;
     uni_isspace := fun _ => false;
     uni_lower := fun s => s;
     date_fromisoformat := parse_ymd |}.

(** The ten Arabic-Indic digits, zero to nine. *)
Definition arabic_indic_number : str :=
  [1632; 1633; 1634; 1635; 1636; 1637; 1638; 1639; 1640; 1641]%N.

Definition with_Contact_Number (number : str) (form : upload_form) : upload_form :=
  {| form_Full_Name := form_Full_Name form;
     form_DOB := form_DOB form;
     form_Contact_Number := number;
     form_Address := form_Address form;
     form_Qualification := form_Qualification form;
     form_Graduation_Year := form_Graduation_Year form;
     form_Years_of_Experience := form_Years_of_Experience form;
     form_Skills := form_Skills form;
     Resume_filename := Resume_filename form |}.

(** The sample submitted with that contact number. *)
Definition arabic_indic_upload : state * answer CandidateOut :=
  @upload_candidate arabic_indic_runtime sample_io
    (with_Contact_Number arabic_indic_number sample_form) (initial_state ∅).

(** Two uploads of the sample that overlap: the second request is taken up
    while the first is suspended, then the first is resumed, then the
    second. *)
Definition overlapping_uploads : state :=
  let '(st1, r1) := @upload_begin ascii_runtime sample_io sample_form (initial_state ∅) in
  let '(st2, r2) := @upload_begin ascii_runtime sample_io sample_form st1 in
  match r1, r2 with
  | inr p1, inr p2 =>
      let st3 := (@upload_resume ascii_runtime sample_io p1 st2).1 in
      (@upload_resume ascii_runtime sample_io p2 st3).1
  | _, _ => st2
  end.

(** The first record deleted again, and the sample submitted once more. *)
Definition first_deleted : state * answer deleted :=
  delete_candidate {| remove_raises := false |} 1 first_upload.1.

Definition upload_after_delete : state * answer CandidateOut :=
  @upload_candidate ascii_runtime sample_io sample_form first_deleted.1.

(** The same submission when the disk fills up after the file has been
    opened and two bytes have been written. *)
Definition disk_full_io : upload_io :=
  {| today_base := mkdate 2026 1 15;
     today_out := mkdate 2026 1 15;
     utcnow := 1768471200000000;
     Resume_read := Some [Byte.x25; Byte.x50; Byte.x44; Byte.x46];
     file_write := WriteRaises [Byte.x25; Byte.x50] |}.

Definition failed_upload : state * answer CandidateOut :=
  @upload_candidate ascii_runtime disk_full_io sample_form (initial_state ∅).


(** A character that is neither the path separator nor a parenthesis. *)
Definition plain_char (c : char) : Prop :=
  c <> 47%N /\ c <> 40%N /\ c <> 41%N.

(** *** Invariants of the stored records *)

Section Invariants.
Context `{RT : Runtime}.

(** What the [Field] bounds and the validators of [CandidateBase] leave
    true of a model (the date of birth, which is checked against the day of
    the construction, apart). *)
Definition within_bounds (b : CandidateBase) : Prop :=
  2 <= len (Full_Name b) <= 100
  /\ Forall (fun c => re_digit c = true) (Contact_Number b)
  /\ 10 <= len (Contact_Number b) <= 15
  /\ 5 <= len (Address b) <= 300
  /\ 2 <= len (Qualification b) <= 120
  /\ 1950 <= Graduation_Year b <= 2100
  /\ PrimFloat.leb 0%float (Years_of_Experience b) = true
  /\ PrimFloat.leb (Years_of_Experience b) 60%float = true
  /\ Skills b <> []
  /\ Forall clean_skill (Skills b).

(** Every stored record has its file on disk, and no two records share
    one. *)
Definition files_in_place (st : state) : Prop :=
  (forall k c, (k, c) ∈ CANDIDATES st ->
     path_exists (files st) (resume_path c) = true)
  /\ (forall k1 c1 k2 c2, (k1, c1) ∈ CANDIDATES st -> (k2, c2) ∈ CANDIDATES st ->
       resume_path c1 = resume_path c2 -> k1 = k2).

(** Every stored record's path is one of the two [_get_unique_save_path]
    can return for the record's id. *)
Definition paths_resolved (st : state) : Prop :=
  forall k c, (k, c) ∈ CANDIDATES st ->
    exists name, resume_path c = preferred_path name
                 \/ resume_path c = suffixed_path k name.

End Invariants.

(** * Properties *)

(** ** Text primitives *)

Section TextFacts.
Variable p : char -> bool.

Lemma lstrip_Forall (P : char -> Prop) (s : str) :
  Forall P s -> Forall P (lstrip p s).
Proof.
  induction 1 as [|c r Hc Hr IH]; simpl; [constructor|].
  destruct (p c); [exact IH | by constructor].
Qed.

Lemma lstrip_head (s : str) (c : char) (r : str) :
  lstrip p s = c :: r -> p c = false.
Proof.
  induction s as [|x s IH]; simpl; [discriminate|].
  destruct (p x) eqn:Hx; [exact IH|].
  intros [= -> _]. exact Hx.
Qed.

Lemma lstrip_fixed (c : char) (r : str) :
  p c = false -> lstrip p (c :: r) = c :: r.
Proof. intros H. simpl. by rewrite H. Qed.

(** Stripping on the left keeps everything from a character that stays. *)
Lemma lstrip_keeps_tail (l : str) (c : char) (r : str) :
  p c = false -> exists l', lstrip p (l ++ c :: r) = l' ++ c :: r.
Proof.
  intros Hc. induction l as [|x l IH]; simpl.
  - rewrite Hc. by exists [].
  - destruct (p x); [exact IH|]. by exists (x :: l).
Qed.

Lemma rstrip_Forall (P : char -> Prop) (s : str) :
  Forall P s -> Forall P (rstrip p s).
Proof.
  intros H. unfold rstrip. apply Forall_rev, lstrip_Forall, Forall_rev, H.
Qed.

Lemma rstrip_keeps_head (c : char) (r : str) :
  p c = false -> exists r', rstrip p (c :: r) = c :: r'.
Proof.
  intros Hc. unfold rstrip. simpl rev.
  destruct (lstrip_keeps_tail (rev r) c [] Hc) as [l' ->].
  exists (rev l'). by rewrite rev_app_distr.
Qed.

Lemma rstrip_last (s : str) (c : char) :
  last (rstrip p s) = Some c -> p c = false.
Proof.
  unfold rstrip. intros H.
  destruct (lstrip p (rev s)) as [|x l] eqn:E; [discriminate|].
  simpl in H. rewrite last_snoc in H. injection H as <-.
  exact (lstrip_head _ _ _ E).
Qed.

Lemma rstrip_fixed (s : str) (c : char) :
  p c = false -> rstrip p (s ++ [c]) = s ++ [c].
Proof.
  intros Hc. unfold rstrip. rewrite rev_app_distr. simpl.
  rewrite Hc. simpl. by rewrite rev_involutive.
Qed.

Lemma strip_Forall (P : char -> Prop) (s : str) :
  Forall P s -> Forall P (strip p s).
Proof. intros H. by apply rstrip_Forall, lstrip_Forall. Qed.

Lemma strip_head (s : str) (c : char) :
  head (strip p s) = Some c -> p c = false.
Proof.
  unfold strip. destruct (lstrip p s) as [|x l] eqn:E.
  - discriminate.
  - pose proof (lstrip_head _ _ _ E) as Hx.
    destruct (rstrip_keeps_head x l Hx) as [r' ->]. simpl. by intros [= <-].
Qed.

Lemma strip_last (s : str) (c : char) :
  last (strip p s) = Some c -> p c = false.
Proof. apply rstrip_last. Qed.

(** A string that neither starts nor ends with a stripped character is
    left alone. *)
Lemma strip_fixed (s : str) :
  (forall c, head s = Some c -> p c = false) ->
  (forall c, last s = Some c -> p c = false) ->
  strip p s = s.
Proof.
  intros Hh Hl. unfold strip.
  destruct s as [|x s]; [reflexivity|].
  rewrite lstrip_fixed by (by apply Hh).
  destruct (last (x :: s)) as [c|] eqn:E.
  - pose proof E as E'. apply last_Some in E' as [l' E'].
    rewrite E'. apply rstrip_fixed, Hl. reflexivity.
  - by apply last_None in E.
Qed.

Lemma strip_idemp (s : str) : strip p (strip p s) = strip p s.
Proof. apply strip_fixed; [apply strip_head | apply strip_last]. Qed.

End TextFacts.

Lemma re_sub_class_empty (cls : char -> bool) (s : str) :
  re_sub_class cls [] s = filter (fun c => negb (cls c) = true) s.
Proof.
  induction s as [|c s IH]; [reflexivity|].
  rewrite filter_cons. cbn [re_sub_class]. destruct (cls c); cbn [negb app].
  - rewrite decide_False by discriminate. exact IH.
  - rewrite decide_True by reflexivity. by rewrite IH.
Qed.

Lemma re_sub_run_Forall (cls : char -> bool) (repl : str) (P : char -> Prop)
    (b : bool) (s : str) :
  Forall P repl -> (forall c, cls c = false -> P c) ->
  Forall P (re_sub_run cls repl b s).
Proof.
  intros Hrepl Hcls. revert b.
  induction s as [|c s IH]; intros b; simpl; [constructor|].
  destruct (cls c) eqn:Hc.
  - apply Forall_app. split; [destruct b; [constructor | exact Hrepl] | apply IH].
  - constructor; [by apply Hcls | apply IH].
Qed.

Lemma re_sub_run_nomatch (cls : char -> bool) (repl : str) (b : bool) (s : str) :
  Forall (fun c => cls c = false) s -> re_sub_run cls repl b s = s.
Proof.
  intros H. revert b. induction H as [|c s Hc Hs IH]; intros b; simpl; [reflexivity|].
  rewrite Hc. by rewrite IH.
Qed.

(** ** [_safe_filename] *)

Lemma sanitized_Forall (name : str) :
  Forall (fun c => filename_char c = true)
    (re_sub_class_plus not_filename_char (s2u "_") name).
Proof.
  apply re_sub_run_Forall.
  - repeat constructor.
  - intros c Hc. unfold not_filename_char in Hc. by apply negb_false_iff in Hc.
Qed.

Lemma safe_filename_cases (name : str) :
  _safe_filename name =
    if decide (sanitized_and_trimmed name = []) then s2u "resume"
    else sanitized_and_trimmed name.
Proof.
  unfold _safe_filename. fold (sanitized_and_trimmed name).
  destruct (sanitized_and_trimmed name) as [|c r]; reflexivity.
Qed.

Lemma safe_filename_Forall (name : str) :
  Forall (fun c => filename_char c = true) (_safe_filename name).
Proof.
  rewrite safe_filename_cases. case_decide.
  - repeat constructor.
  - apply strip_Forall, sanitized_Forall.
Qed.

Lemma safe_filename_head (name : str) (c : char) :
  head (_safe_filename name) = Some c -> is_underscore c = false.
Proof.
  rewrite safe_filename_cases. case_decide.
  - by intros [= <-].
  - apply strip_head.
Qed.

Lemma safe_filename_last (name : str) (c : char) :
  last (_safe_filename name) = Some c -> is_underscore c = false.
Proof.
  rewrite safe_filename_cases. case_decide.
  - by intros [= <-].
  - apply strip_last.
Qed.

Lemma safe_filename_nonempty (name : str) : _safe_filename name <> [].
Proof. rewrite safe_filename_cases. by case_decide. Qed.

(** A name that is already safe is returned as it is. *)
Lemma safe_filename_fixed (s : str) :
  s <> [] ->
  Forall (fun c => filename_char c = true) s ->
  (forall c, head s = Some c -> is_underscore c = false) ->
  (forall c, last s = Some c -> is_underscore c = false) ->
  _safe_filename s = s.
Proof.
  intros Hne Hall Hh Hl. unfold _safe_filename, re_sub_class_plus.
  rewrite re_sub_run_nomatch.
  - rewrite strip_fixed by assumption. by destruct s.
  - eapply Forall_impl; [exact Hall|]. intros c Hc.
    unfold not_filename_char. by rewrite Hc.
Qed.

(** C3: the output of [_safe_filename] consists of characters of
    [[A-Za-z0-9._-]] only, is never empty and neither starts nor ends with an
    underscore (code point 95); it is the sanitized and trimmed name, or the
    literal "resume" when that is empty. *)
Theorem safe_filename_shape (name : str) :
  Forall (fun c => filename_char c = true) (_safe_filename name)
  /\ _safe_filename name <> []
  /\ head (_safe_filename name) <> Some 95%N
  /\ last (_safe_filename name) <> Some 95%N
  /\ _safe_filename name =
       (if decide (sanitized_and_trimmed name = []) then s2u "resume"
        else sanitized_and_trimmed name).
Proof.
  split; [apply safe_filename_Forall|].
  split; [apply safe_filename_nonempty|].
  split; [|split].
  - intros H. by apply safe_filename_head in H.
  - intros H. by apply safe_filename_last in H.
  - apply safe_filename_cases.
Qed.

(** C9: [_safe_filename] is idempotent. *)
Theorem safe_filename_idempotent (name : str) :
  _safe_filename (_safe_filename name) = _safe_filename name.
Proof.
  apply safe_filename_fixed.
  - apply safe_filename_nonempty.
  - apply safe_filename_Forall.
  - apply safe_filename_head.
  - apply safe_filename_last.
Qed.

(** ** The validators *)

Lemma filter_Forall {A} (P : A -> Prop) `{forall x, Decision (P x)} (l : list A) :
  Forall P (filter P l).
Proof.
  apply Forall_forall. intros x Hx. by apply list_elem_of_filter in Hx as [? _].
Qed.

Lemma filter_fixed {A} (P : A -> Prop) `{forall x, Decision (P x)} (l : list A) :
  Forall P l -> filter P l = l.
Proof.
  induction 1 as [|x l Hx Hl IH]; [reflexivity|].
  rewrite filter_cons_True by assumption. by rewrite IH.
Qed.

Section ValidatorFacts.
Context `{RT : Runtime}.

Lemma normalize_phone_filter (phone : str) :
  _normalize_phone phone = filter (fun c => re_digit c = true) phone.
Proof.
  unfold _normalize_phone. rewrite re_sub_class_empty.
  apply list_filter_iff. intros c. unfold re_nondigit. by rewrite negb_involutive.
Qed.

Lemma normalize_phone_digits (phone : str) :
  Forall (fun c => re_digit c = true) (_normalize_phone phone).
Proof. rewrite normalize_phone_filter. apply filter_Forall. Qed.

Lemma normalize_phone_idemp (phone : str) :
  _normalize_phone (_normalize_phone phone) = _normalize_phone phone.
Proof.
  rewrite (normalize_phone_filter (_normalize_phone phone)).
  apply filter_fixed, normalize_phone_digits.
Qed.

Lemma validate_contact_number_cases (v : str) :
  validate_contact_number v =
    if decide (10 <= len (_normalize_phone v) <= 15)
    then inr (_normalize_phone v) else inl InvalidPhone.
Proof.
  unfold validate_contact_number.
  destruct (len (_normalize_phone v) <? 10) eqn:E1;
    destruct (len (_normalize_phone v) >? 15) eqn:E2; simpl;
    case_decide; try reflexivity; lia.
Qed.

Lemma date_gt_irrefl (d : date) : date_gt d d = false.
Proof.
  unfold date_gt.
  rewrite !Z.gtb_ltb, !Z.ltb_irrefl, !Z.eqb_refl. reflexivity.
Qed.

Lemma elem_of_errors_of {A} (x : rejection + A) (r : rejection) :
  r ∈ errors_of x <-> x = inl r.
Proof.
  destruct x as [e|a]; simpl.
  - rewrite list_elem_of_singleton. split; [by intros -> | by intros [= ->]].
  - split; [by intros ?%not_elem_of_nil | discriminate].
Qed.

Lemma elem_of_field_errors (r : rejection) (today : date)
    (f : str) (d : date) (c a q : str) (y : Z) (e : float) (s : list str) :
  r ∈ field_errors today f d c a q y e s <->
    str_field Full_Name_field 2 100 f = inl r
    \/ validate_dob today d = inl r
    \/ validate_contact_number c = inl r
    \/ str_field Address_field 5 300 a = inl r
    \/ str_field Qualification_field 2 120 q = inl r
    \/ year_field y = inl r
    \/ experience_field e = inl r
    \/ skills_field s = inl r.
Proof.
  unfold field_errors. rewrite !elem_of_app, !elem_of_errors_of. tauto.
Qed.

(** Which field can report which kind. *)
Lemma str_field_inl (f : field) (lo hi : Z) (v : str) (r : rejection) :
  str_field f lo hi v = inl r -> r = OutOfRange f.
Proof. unfold str_field. case_match; congruence. Qed.

Lemma year_field_inl (v : Z) (r : rejection) :
  year_field v = inl r -> r = OutOfRange Graduation_Year_field.
Proof. unfold year_field. case_match; congruence. Qed.

Lemma experience_field_inl (v : float) (r : rejection) :
  experience_field v = inl r -> r = OutOfRange Years_of_Experience_field.
Proof. unfold experience_field. case_match; congruence. Qed.

Lemma validate_dob_inl (today v : date) (r : rejection) :
  validate_dob today v = inl r -> r = FutureDate.
Proof. unfold validate_dob. case_match; congruence. Qed.

Lemma validate_contact_number_inl (v : str) (r : rejection) :
  validate_contact_number v = inl r -> r = InvalidPhone.
Proof. rewrite validate_contact_number_cases. case_decide; congruence. Qed.

Lemma validate_skills_inl (v : list str) (r : rejection) :
  validate_skills v = inl r -> r = EmptySkills.
Proof. unfold validate_skills. case_match; congruence. Qed.

Lemma skills_field_inl (v : list str) (r : rejection) :
  skills_field v = inl r -> r = EmptySkills.
Proof.
  unfold skills_field. case_match; [apply validate_skills_inl | congruence].
Qed.

Lemma field_errors_kinds (r : rejection) (today : date)
    (f : str) (d : date) (c a q : str) (y : Z) (e : float) (s : list str) :
  r ∈ field_errors today f d c a q y e s ->
  (exists fld, r = OutOfRange fld) \/ r = FutureDate \/ r = InvalidPhone
  \/ r = EmptySkills.
Proof.
  rewrite elem_of_field_errors.
  intros [H|[H|[H|[H|[H|[H|[H|H]]]]]]].
  - apply str_field_inl in H. eauto.
  - apply validate_dob_inl in H. eauto.
  - apply validate_contact_number_inl in H. eauto.
  - apply str_field_inl in H. eauto.
  - apply str_field_inl in H. eauto.
  - apply year_field_inl in H. eauto.
  - apply experience_field_inl in H. eauto.
  - apply skills_field_inl in H. eauto.
Qed.

Lemma FutureDate_in_field_errors (today : date)
    (f : str) (d : date) (c a q : str) (y : Z) (e : float) (s : list str) :
  FutureDate ∈ field_errors today f d c a q y e s <-> date_gt d today = true.
Proof.
  rewrite elem_of_field_errors. split.
  - intros [H|[H|[H|[H|[H|[H|[H|H]]]]]]].
    + by apply str_field_inl in H.
    + unfold validate_dob in H. by destruct (date_gt d today).
    + by apply validate_contact_number_inl in H.
    + by apply str_field_inl in H.
    + by apply str_field_inl in H.
    + by apply year_field_inl in H.
    + by apply experience_field_inl in H.
    + by apply skills_field_inl in H.
  - intros H. right; left. unfold validate_dob. by rewrite H.
Qed.

Lemma InvalidPhone_in_field_errors (today : date)
    (f : str) (d : date) (c a q : str) (y : Z) (e : float) (s : list str) :
  InvalidPhone ∈ field_errors today f d c a q y e s
  <-> ~ (10 <= len (_normalize_phone c) <= 15).
Proof.
  rewrite elem_of_field_errors. split.
  - intros [H|[H|[H|[H|[H|[H|[H|H]]]]]]].
    + by apply str_field_inl in H.
    + by apply validate_dob_inl in H.
    + rewrite validate_contact_number_cases in H. by case_decide.
    + by apply str_field_inl in H.
    + by apply str_field_inl in H.
    + by apply year_field_inl in H.
    + by apply experience_field_inl in H.
    + by apply skills_field_inl in H.
  - intros H. right; right; left.
    rewrite validate_contact_number_cases. by rewrite decide_False.
Qed.

Local Ltac field_fails :=
  split; [discriminate | intros H; decompose [and] H; discriminate].

(** The model exists exactly when each field passes, and then holds the
    value each field check returned. *)
Lemma new_CandidateBase_inr (today : date)
    (f : str) (d : date) (c a q : str) (y : Z) (e : float) (s : list str)
    (b : CandidateBase) :
  new_CandidateBase today f d c a q y e s = inr b <->
    str_field Full_Name_field 2 100 f = inr (Full_Name b)
    /\ validate_dob today d = inr (DOB b)
    /\ validate_contact_number c = inr (Contact_Number b)
    /\ str_field Address_field 5 300 a = inr (Address b)
    /\ str_field Qualification_field 2 120 q = inr (Qualification b)
    /\ year_field y = inr (Graduation_Year b)
    /\ experience_field e = inr (Years_of_Experience b)
    /\ skills_field s = inr (Skills b).
Proof.
  unfold new_CandidateBase.
  destruct (str_field Full_Name_field 2 100 f); [field_fails|].
  destruct (validate_dob today d); [field_fails|].
  destruct (validate_contact_number c); [field_fails|].
  destruct (str_field Address_field 5 300 a); [field_fails|].
  destruct (str_field Qualification_field 2 120 q); [field_fails|].
  destruct (year_field y); [field_fails|].
  destruct (experience_field e); [field_fails|].
  destruct (skills_field s); [field_fails|].
  destruct b; simpl. split.
  - intros [= -> -> -> -> -> -> -> ->]. repeat split.
  - intros H. decompose [and] H. congruence.
Qed.

Lemma new_CandidateBase_inl (today : date)
    (f : str) (d : date) (c a q : str) (y : Z) (e : float) (s : list str)
    (errs : list rejection) :
  new_CandidateBase today f d c a q y e s = inl errs ->
  errs = field_errors today f d c a q y e s.
Proof.
  unfold new_CandidateBase.
  destruct (str_field Full_Name_field 2 100 f); [congruence|].
  destruct (validate_dob today d); [congruence|].
  destruct (validate_contact_number c); [congruence|].
  destruct (str_field Address_field 5 300 a); [congruence|].
  destruct (str_field Qualification_field 2 120 q); [congruence|].
  destruct (year_field y); [congruence|].
  destruct (experience_field e); [congruence|].
  destruct (skills_field s); congruence.
Qed.


(** *** Validating validated values again *)

Lemma str_field_inr (f : field) (lo hi : Z) (v w : str) :
  str_field f lo hi v = inr w -> w = v /\ str_field f lo hi w = inr w.
Proof.
  unfold str_field. case_match eqn:E; [|discriminate].
  intros [= <-]. by rewrite E.
Qed.

Lemma year_field_inr (v w : Z) :
  year_field v = inr w -> w = v /\ year_field w = inr w.
Proof.
  unfold year_field. case_match eqn:E; [|discriminate].
  intros [= <-]. by rewrite E.
Qed.

Lemma experience_field_inr (v w : float) :
  experience_field v = inr w -> w = v /\ experience_field w = inr w.
Proof.
  unfold experience_field. case_match eqn:E; [|discriminate].
  intros [= <-]. by rewrite E.
Qed.

Lemma validate_dob_inr (today v w : date) :
  validate_dob today v = inr w -> w = v /\ date_gt v today = false.
Proof. unfold validate_dob. case_match eqn:E; [discriminate|]. by intros [= <-]. Qed.

Lemma validate_contact_number_inr (v w : str) :
  validate_contact_number v = inr w ->
  w = _normalize_phone v /\ 10 <= len w <= 15
  /\ validate_contact_number w = inr w.
Proof.
  rewrite validate_contact_number_cases. case_decide as Hlen; [|discriminate].
  intros [= <-]. repeat split; try lia.
  rewrite validate_contact_number_cases, normalize_phone_idemp.
  by rewrite decide_True.
Qed.

Lemma nonempty_true (s : str) : nonempty s = true <-> s <> [].
Proof. destruct s; simpl; split; congruence. Qed.

Lemma validate_skills_inr (v cleaned : list str) :
  validate_skills v = inr cleaned ->
  cleaned <> [] /\ Forall clean_skill cleaned.
Proof.
  unfold validate_skills.
  set (kept := filter _ v). intros H.
  assert (cleaned = map (strip isspace) kept) as ->
    by (destruct (map (strip isspace) kept); congruence).
  split; [by destruct (map (strip isspace) kept)|].
  apply Forall_map, Forall_forall. intros s Hs.
  apply list_elem_of_filter in Hs as [Hs _].
  apply andb_true_iff in Hs as [_ Hs]. split.
  - by apply nonempty_true.
  - apply strip_idemp.
Qed.

Lemma validate_skills_clean (cleaned : list str) :
  cleaned <> [] -> Forall clean_skill cleaned ->
  validate_skills cleaned = inr cleaned.
Proof.
  intros Hne Hall. unfold validate_skills.
  assert (map (strip isspace) cleaned = cleaned) as Hmap.
  { clear Hne. induction Hall as [|s l [_ Hs] _ IH]; [reflexivity|].
    simpl. by rewrite Hs, IH. }
  rewrite filter_fixed.
  - rewrite Hmap. by destruct cleaned.
  - eapply Forall_impl; [exact Hall|]. intros s [Hs1 Hs2]. simpl.
    rewrite Hs2. apply nonempty_true in Hs1. by rewrite Hs1.
Qed.

Lemma skills_field_inr (v cleaned : list str) :
  skills_field v = inr cleaned ->
  validate_skills v = inr cleaned /\ skills_field cleaned = inr cleaned.
Proof.
  unfold skills_field. case_match; [|discriminate]. intros Hv. split; [exact Hv|].
  apply validate_skills_inr in Hv as [Hne Hall].
  replace (1 <=? len cleaned) with true.
  - by apply validate_skills_clean.
  - symmetry. apply Z.leb_le. unfold len. destruct cleaned; simpl; [done | lia].
Qed.

(** A model that was built once is rebuilt unchanged from its own fields,
    unless its date of birth is after the day of the second construction. *)
Lemma new_CandidateBase_again (today today' : date)
    (f : str) (d : date) (c a q : str) (y : Z) (e : float) (s : list str)
    (b : CandidateBase) :
  new_CandidateBase today f d c a q y e s = inr b ->
  new_CandidateBase today' (Full_Name b) (DOB b) (Contact_Number b) (Address b)
    (Qualification b) (Graduation_Year b) (Years_of_Experience b) (Skills b)
  = if date_gt (DOB b) today' then inl [FutureDate] else inr b.
Proof.
  intros H. apply new_CandidateBase_inr in H as (H1&H2&H3&H4&H5&H6&H7&H8).
  apply str_field_inr in H1 as [_ H1]. apply str_field_inr in H4 as [_ H4].
  apply str_field_inr in H5 as [_ H5]. apply year_field_inr in H6 as [_ H6].
  apply experience_field_inr in H7 as [_ H7].
  apply validate_contact_number_inr in H3 as (_&_&H3).
  apply skills_field_inr in H8 as [_ H8].
  destruct (date_gt (DOB b) today') eqn:E.
  - unfold new_CandidateBase, field_errors, validate_dob.
    rewrite H1, E, H3, H4, H5, H6, H7, H8. reflexivity.
  - apply new_CandidateBase_inr. unfold validate_dob. rewrite E. auto 10.
Qed.

End ValidatorFacts.

(** ** The store *)

Section DictFacts.
Context {V : Type}.
Implicit Types (d : list (Z * V)) (k : Z) (v : V).

Lemma dict_get_remove_eq k d : dict_get k (dict_remove k d) = None.
Proof.
  induction d as [|[k' v'] d IH]; [reflexivity|]. simpl.
  destruct (k' =? k) eqn:E; [exact IH|]. simpl. by rewrite E.
Qed.

Lemma dict_get_remove_ne k k' d :
  k' <> k -> dict_get k' (dict_remove k d) = dict_get k' d.
Proof.
  intros Hne. induction d as [|[k0 v0] d IH]; [reflexivity|]. simpl.
  destruct (k0 =? k) eqn:E.
  - apply Z.eqb_eq in E as ->.
    by rewrite IH, (proj2 (Z.eqb_neq k k')).
  - simpl. by rewrite IH.
Qed.

Lemma dict_remove_absent k d : dict_get k d = None -> dict_remove k d = d.
Proof.
  induction d as [|[k' v'] d IH]; [reflexivity|]. simpl.
  destruct (k' =? k); [discriminate|]. intros H. by rewrite IH.
Qed.

Lemma elem_of_dict_remove k k' v d :
  (k', v) ∈ dict_remove k d <-> k' <> k /\ (k', v) ∈ d.
Proof.
  induction d as [|[k0 v0] d IH]; simpl.
  - split; [by intros ?%not_elem_of_nil | by intros [_ ?%not_elem_of_nil]].
  - destruct (k0 =? k) eqn:E.
    + apply Z.eqb_eq in E as ->. rewrite IH, elem_of_cons.
      split; [tauto|]. intros [Hne [[= ]|H]]; [congruence | done].
    + apply Z.eqb_neq in E. rewrite !elem_of_cons, IH.
      split; [|tauto]. intros [[= -> ->]|H]; [by auto | tauto].
Qed.

Lemma dict_remove_NoDup k d :
  NoDup (map fst d) -> NoDup (map fst (dict_remove k d)).
Proof.
  induction d as [|[k0 v0] d IH]; simpl; [done|].
  intros [Hk Hnd]%NoDup_cons.
  destruct (k0 =? k); [by apply IH|].
  simpl. apply NoDup_cons. split; [|by apply IH].
  change (map fst ?l) with (fst <$> l) in *.
  intros ([k' v'] & Hk' & Hin)%list_elem_of_fmap. simpl in Hk'. subst k'.
  apply elem_of_dict_remove in Hin as [_ Hin].
  apply Hk, list_elem_of_fmap. by exists (k0, v').
Qed.

Lemma dict_get_Some_elem k v d : dict_get k d = Some v -> (k, v) ∈ d.
Proof.
  induction d as [|[k' v'] d IH]; [discriminate|]. simpl.
  destruct (k' =? k) eqn:E.
  - apply Z.eqb_eq in E as ->. intros [= ->]. apply list_elem_of_here.
  - intros H. apply list_elem_of_further, IH, H.
Qed.

Lemma dict_get_None_elem k d : dict_get k d = None -> forall v, (k, v) ∉ d.
Proof.
  induction d as [|[k' v'] d IH]; simpl; intros H v.
  - apply not_elem_of_nil.
  - destruct (k' =? k) eqn:E; [discriminate|]. apply Z.eqb_neq in E.
    rewrite elem_of_cons. intros [[= ]|Hin]; [congruence|]. by apply (IH H v).
Qed.

Lemma dict_get_set_eq k v d : dict_get k (dict_set k v d) = Some v.
Proof.
  induction d as [|[k' v'] d IH]; simpl.
  - by rewrite Z.eqb_refl.
  - destruct (k' =? k) eqn:E; simpl; [by rewrite Z.eqb_refl | by rewrite E].
Qed.

Lemma dict_get_set_ne k k' v d :
  k' <> k -> dict_get k' (dict_set k v d) = dict_get k' d.
Proof.
  intros Hne. apply Z.eqb_neq in Hne.
  induction d as [|[k0 v0] d IH]; simpl.
  - by rewrite Z.eqb_sym, Hne.
  - destruct (k0 =? k) eqn:E; simpl.
    + apply Z.eqb_eq in E as ->. by rewrite Z.eqb_sym, Hne.
    + by rewrite IH.
Qed.

Lemma dict_set_absent k v d : dict_get k d = None -> dict_set k v d = d ++ [(k, v)].
Proof.
  induction d as [|[k' v'] d IH]; [reflexivity|]. simpl.
  destruct (k' =? k); [discriminate|]. intros H. by rewrite IH.
Qed.

End DictFacts.

(** ** The handlers *)

Section HandlerFacts.
Context `{RT : Runtime}.

Lemma store_candidate_Returned (io : upload_io) (base : CandidateBase)
    (filename : option str) (st st' : state) (c : CandidateOut) :
  store_candidate io base filename st = (st', Returned c) ->
  exists content b',
    Resume_read io = Some content /\ file_write io = Written
    /\ new_CandidateBase (today_out io) (Full_Name base) (DOB base)
         (Contact_Number base) (Address base) (Qualification base)
         (Graduation_Year base) (Years_of_Experience base) (Skills base) = inr b'
    /\ c = {| out_base := b'; out_id := NEXT_ID st;
              resume_filename := basename (stored_path_of filename st);
              resume_path := stored_path_of filename st;
              created_at := utcnow io |}
    /\ st' = {| CANDIDATES := dict_set (NEXT_ID st) c (CANDIDATES st);
                NEXT_ID := NEXT_ID st + 1;
                files := <[stored_path_of filename st := content]> (files st) |}.
Proof.
  unfold store_candidate, new_CandidateOut, stored_path_of. simpl.
  destruct (Resume_read io) as [content|]; [|discriminate].
  destruct (file_write io); try discriminate.
  destruct (new_CandidateBase _ _ _ _ _ _ _ _ _) as [errs|b'] eqn:E;
    [discriminate|].
  intros [= <- <-]. exists content, b'. repeat split.
Qed.

(** Every way [store_candidate] can end without returning. *)
Lemma store_candidate_Uncaught (io : upload_io) (base : CandidateBase)
    (filename : option str) (st st' : state) :
  store_candidate io base filename st = (st', Uncaught) ->
  CANDIDATES st' = CANDIDATES st /\ NEXT_ID st' = NEXT_ID st + 1
  /\ ((files st' = files st
       /\ (Resume_read io = None \/ file_write io = OpenRaises))
      \/ (exists content partial,
            Resume_read io = Some content
            /\ file_write io = WriteRaises partial
            /\ files st' = <[stored_path_of filename st := partial]> (files st))
      \/ (exists content,
            Resume_read io = Some content /\ file_write io = Written
            /\ date_gt (DOB base) (today_out io) = true
            /\ files st' = <[stored_path_of filename st := content]> (files st))
      \/ (exists content errs,
            Resume_read io = Some content /\ file_write io = Written
            /\ new_CandidateBase (today_out io) (Full_Name base) (DOB base)
                 (Contact_Number base) (Address base) (Qualification base)
                 (Graduation_Year base) (Years_of_Experience base) (Skills base)
               = inl errs
            /\ files st' = <[stored_path_of filename st := content]> (files st))).
Proof.
  unfold store_candidate, new_CandidateOut, stored_path_of. simpl.
  destruct (Resume_read io) as [content|].
  - destruct (file_write io) as [| |partial].
    + destruct (new_CandidateBase _ _ _ _ _ _ _ _ _) as [errs|b'] eqn:E;
        [|discriminate].
      intros [= <-]. simpl. repeat split. right; right; right. eauto 10.
    + intros [= <-]. simpl. auto 10.
    + intros [= <-]. simpl. repeat split. right; left. eauto 10.
  - intros [= <-]. simpl. auto 10.
Qed.

Lemma store_candidate_answer (io : upload_io) (base : CandidateBase)
    (filename : option str) (st : state) :
  forall status detail,
    (store_candidate io base filename st).2 <> HTTPException status detail.
Proof.
  intros status detail. unfold store_candidate, new_CandidateOut.
  repeat case_match; simpl; discriminate.
Qed.

(** What a successful upload did. *)
Lemma upload_candidate_Returned (io : upload_io) (form : upload_form)
    (st st' : state) (c : CandidateOut) :
  upload_candidate io form st = (st', Returned c) ->
  exists dob base content,
    Resume_ext form ∈ ALLOWED_EXTENSIONS
    /\ date_fromisoformat (form_DOB form) = Some dob
    /\ new_CandidateBase (today_base io) (form_Full_Name form) dob
         (form_Contact_Number form) (form_Address form) (form_Qualification form)
         (form_Graduation_Year form) (form_Years_of_Experience form)
         (_parse_skills (form_Skills form)) = inr base
    /\ Resume_read io = Some content /\ file_write io = Written
    /\ date_gt (DOB base) (today_out io) = false
    /\ c = {| out_base := base; out_id := NEXT_ID st;
              resume_filename := basename (stored_path_of (Resume_filename form) st);
              resume_path := stored_path_of (Resume_filename form) st;
              created_at := utcnow io |}
    /\ st' = {| CANDIDATES := dict_set (NEXT_ID st) c (CANDIDATES st);
                NEXT_ID := NEXT_ID st + 1;
                files := <[stored_path_of (Resume_filename form) st := content]> (files st) |}.
Proof.
  unfold upload_candidate.
  destruct (bool_decide _) eqn:Hext; simpl; [|discriminate].
  apply bool_decide_eq_true in Hext.
  destruct (date_fromisoformat (form_DOB form)) as [dob|]; [|discriminate].
  destruct (new_CandidateBase (today_base io) _ _ _ _ _ _ _ _) as [errs|base] eqn:Hbase;
    [discriminate|].
  intros H. apply store_candidate_Returned in H as (content&b'&Hr&Hw&Hb'&Hc&Hst).
  rewrite (new_CandidateBase_again _ _ _ _ _ _ _ _ _ _ _ Hbase) in Hb'.
  destruct (date_gt (DOB base) (today_out io)) eqn:Hd; [discriminate|].
  injection Hb' as <-. exists dob, base, content. auto 10.
Qed.

(** *** Listing *)

Lemma elem_of_insert_desc (x c : CandidateOut) (l : list CandidateOut) :
  x ∈ insert_desc c l <-> x = c \/ x ∈ l.
Proof.
  induction l as [|y l IH]; simpl.
  - rewrite list_elem_of_singleton, elem_of_nil. tauto.
  - destruct (created_at y >? created_at c).
    + rewrite !elem_of_cons, IH. tauto.
    + by rewrite elem_of_cons.
Qed.

Lemma elem_of_sort_created_desc (x : CandidateOut) (l : list CandidateOut) :
  x ∈ sort_created_desc l <-> x ∈ l.
Proof.
  induction l as [|y l IH]; simpl; [reflexivity|].
  by rewrite elem_of_insert_desc, elem_of_cons, IH.
Qed.

(** A listing only shows stored records, whatever the filters. *)
Lemma list_candidates_stored (skill : option str) (m : option float)
    (y : option Z) (st : state) (x : CandidateOut) :
  x ∈ list_candidates skill m y st -> x ∈ dict_values (CANDIDATES st).
Proof.
  unfold list_candidates. rewrite elem_of_sort_created_desc.
  intros H.
  destruct y; [apply list_elem_of_filter in H as [_ H]|];
    (destruct m; [apply list_elem_of_filter in H as [_ H]|]);
    (destruct skill as [sk|]; [destruct (nonempty sk);
       [apply list_elem_of_filter in H as [_ H]|]|]); exact H.
Qed.

(** Without filters it shows all of them. *)
Lemma list_candidates_all (st : state) (x : CandidateOut) :
  x ∈ list_candidates None None None st <-> x ∈ dict_values (CANDIDATES st).
Proof. unfold list_candidates. apply elem_of_sort_created_desc. Qed.

Lemma elem_of_dict_values (d : list (Z * CandidateOut)) (x : CandidateOut) :
  x ∈ dict_values d <-> exists k, (k, x) ∈ d.
Proof.
  unfold dict_values. rewrite list_elem_of_fmap. split.
  - intros [[k v] [-> H]]. by exists k.
  - intros [k H]. by exists (k, x).
Qed.

End HandlerFacts.

(** ** Contact number, date of birth and file type *)

Lemma ascii_isdigit_is_ascii (c : char) :
  ascii_isdigit c = true -> is_ascii c = true.
Proof.
  unfold ascii_isdigit, in_range, is_ascii.
  intros [_ H]%andb_true_iff. apply N.leb_le in H. apply N.ltb_lt. lia.
Qed.

Lemma filter_ext_Forall {A} (P Q : A -> Prop)
    `{forall x, Decision (P x)} `{forall x, Decision (Q x)} (l : list A) :
  Forall (fun x => P x <-> Q x) l -> filter P l = filter Q l.
Proof.
  induction 1 as [|x l Hx _ IH]; [reflexivity|].
  rewrite !filter_cons, IH.
  destruct (decide (P x)), (decide (Q x)); tauto.
Qed.

Section DigitFacts.
Context `{RT : Runtime}.

Lemma re_digit_cases (c : char) :
  re_digit c = true
  <-> ascii_isdigit c = true \/ (is_ascii c = false /\ uni_isdecimal c = true).
Proof.
  unfold re_digit. destruct (is_ascii c) eqn:E.
  - split; [by left|]. intros [H|[H _]]; [exact H | discriminate].
  - split; [by right|]. intros [H|[_ H]]; [|exact H].
    apply ascii_isdigit_is_ascii in H. congruence.
Qed.

Lemma normalize_phone_ascii_digits (v : str) :
  filter (fun c => ascii_isdigit c = true) (_normalize_phone v)
  = filter (fun c => ascii_isdigit c = true) v.
Proof.
  rewrite normalize_phone_filter, list_filter_filter.
  apply list_filter_iff. intros c. rewrite re_digit_cases. tauto.
Qed.

Lemma normalize_phone_ascii_input (v : str) :
  Forall (fun c => is_ascii c = true) v ->
  _normalize_phone v = filter (fun c => ascii_isdigit c = true) v.
Proof.
  intros Hv. rewrite normalize_phone_filter. apply filter_ext_Forall.
  eapply Forall_impl; [exact Hv|]. simpl. intros c Hc.
  rewrite re_digit_cases. split; [|by left].
  intros [H|[H _]]; [exact H | congruence].
Qed.

End DigitFacts.

(** A number written with the ten Arabic-Indic digits has no ASCII digit in
    it, so its ASCII digit string is empty and of length 0; yet
    [_normalize_phone] returns it unchanged, [validate_contact_number]
    accepts it, and the uploaded record is stored with it as its contact
    number. *)
Lemma non_ascii_digits_accepted :
  filter (fun c => ascii_isdigit c = true) arabic_indic_number = []
  /\ @_normalize_phone arabic_indic_runtime arabic_indic_number
     = arabic_indic_number
  /\ @validate_contact_number arabic_indic_runtime arabic_indic_number
     = inr arabic_indic_number
  /\ Contact_Number <$> (out_base <$> returned arabic_indic_upload.2)
     = Some arabic_indic_number.
Proof. vm_compute. repeat split. Qed.

(** C5 (as the code has it): [_normalize_phone] returns exactly the
    characters of its input that are in the class [\d] of [re], in order:
    the ASCII digits, and the decimal digits Unicode has beyond ASCII.  So
    every ASCII digit of the input is kept, and on ASCII input the result is
    the ASCII digit string.  [validate_contact_number] answers
    [InvalidPhone] exactly when the length of the normalized string is
    outside [10, 15] and that string otherwise; building the model reports
    [InvalidPhone] under the same condition, and a stored record holds the
    normalized string as its contact number. *)
Theorem contact_number_digits `{RT : Runtime} (v : str) :
  _normalize_phone v = filter (fun c => re_digit c = true) v
  /\ (forall c, re_digit c = true
                <-> ascii_isdigit c = true
                    \/ (is_ascii c = false /\ uni_isdecimal c = true))
  /\ filter (fun c => ascii_isdigit c = true) (_normalize_phone v)
     = filter (fun c => ascii_isdigit c = true) v
  /\ (Forall (fun c => is_ascii c = true) v ->
      _normalize_phone v = filter (fun c => ascii_isdigit c = true) v)
  /\ (validate_contact_number v = inl InvalidPhone
      <-> ~ (10 <= len (_normalize_phone v) <= 15))
  /\ (validate_contact_number v = inr (_normalize_phone v)
      <-> 10 <= len (_normalize_phone v) <= 15)
  /\ (forall today f d a q y e s,
        (exists errs, new_CandidateBase today f d v a q y e s = inl errs
                      /\ InvalidPhone ∈ errs)
        <-> ~ (10 <= len (_normalize_phone v) <= 15))
  /\ (forall today f d a q y e s b,
        new_CandidateBase today f d v a q y e s = inr b ->
        Contact_Number b = _normalize_phone v)
  /\ (forall io form st st' c,
        form_Contact_Number form = v ->
        upload_candidate io form st = (st', Returned c) ->
        Contact_Number (out_base c) = _normalize_phone v
        /\ dict_get (out_id c) (CANDIDATES st') = Some c).
Proof.
  split; [apply normalize_phone_filter|].
  split; [apply re_digit_cases|].
  split; [apply normalize_phone_ascii_digits|].
  split; [apply normalize_phone_ascii_input|].
  split; [|split; [|split; [|split]]].
  - rewrite validate_contact_number_cases. case_decide; split; congruence.
  - rewrite validate_contact_number_cases. case_decide; split; congruence.
  - intros today f d a q y e s. split.
    + intros (errs & Hnew & Hin). apply new_CandidateBase_inl in Hnew as ->.
      by apply InvalidPhone_in_field_errors in Hin.
    + intros Hlen.
      destruct (new_CandidateBase today f d v a q y e s) as [errs|b] eqn:Hnew.
      * exists errs. split; [reflexivity|].
        apply new_CandidateBase_inl in Hnew as ->.
        by apply InvalidPhone_in_field_errors.
      * apply new_CandidateBase_inr in Hnew as (_&_&H3&_).
        apply validate_contact_number_inr in H3 as (H3&Hb&_).
        rewrite H3 in Hb. contradiction.
  - intros today f d a q y e s b Hnew.
    apply new_CandidateBase_inr in Hnew as (_&_&H3&_).
    by apply validate_contact_number_inr in H3 as (H3&_).
  - intros io form st st' c <- Hup.
    apply upload_candidate_Returned in Hup
      as (dob&base&content&_&_&Hbase&_&_&_&->&->).
    simpl. split; [|apply dict_get_set_eq].
    apply new_CandidateBase_inr in Hbase as (_&_&H3&_).
    by apply validate_contact_number_inr in H3 as (H3&_).
Qed.

Lemma contact_number_digits_witness :
  Contact_Number <$> (out_base <$> returned first_upload.2)
  = Some (s2u "919876543210")
  /\ @_normalize_phone ascii_runtime (s2u "+91 98765 43210")
     = filter (fun c => ascii_isdigit c = true) (s2u "+91 98765 43210").
Proof.
  assert (exists c, first_upload = (first_upload.1, Returned c)) as [c Hc]
    by (vm_compute; eexists; reflexivity).
  destruct (@contact_number_digits ascii_runtime (s2u "+91 98765 43210"))
    as (_ & _ & _ & Hascii & _ & _ & _ & _ & Hup).
  destruct (Hup sample_io sample_form (initial_state ∅) first_upload.1 c
              eq_refl Hc) as [Hnum _].
  split.
  - replace first_upload.2 with (Returned c) by (by rewrite Hc).
    simpl. rewrite Hnum. vm_compute. reflexivity.
  - apply Hascii. vm_compute. repeat constructor.
Defined.

Lemma date_gt_spec (a b : date) :
  date_gt a b = true <->
    year b < year a
    \/ (year a = year b
        /\ (month b < month a \/ (month a = month b /\ day b < day a))).
Proof.
  unfold date_gt.
  rewrite !orb_true_iff, !andb_true_iff, !orb_true_iff, !andb_true_iff.
  rewrite !Z.gtb_ltb, !Z.ltb_lt, !Z.eqb_eq. tauto.
Qed.

(** C6: [validate_dob] answers [FutureDate] exactly when the date is
    strictly after [date.today()]; today itself is accepted; 2999-01-01 is
    rejected on every day before it; and building the model reports
    [FutureDate] under the same condition. *)
Theorem dob_rejected_iff_future (today v : date) :
  (validate_dob today v = inl FutureDate <-> date_gt v today = true)
  /\ (validate_dob today v = inr v <-> date_gt v today = false)
  /\ validate_dob today today = inr today
  /\ (date_gt (mkdate 2999 1 1) today = true ->
      validate_dob today (mkdate 2999 1 1) = inl FutureDate)
  /\ (forall (RT : Runtime) f c a q y e s,
        (exists errs, new_CandidateBase today f v c a q y e s = inl errs
                      /\ FutureDate ∈ errs)
        <-> date_gt v today = true).
Proof.
  unfold validate_dob. rewrite date_gt_irrefl.
  split; [|split; [|split; [|split]]].
  - destruct (date_gt v today); split; congruence.
  - destruct (date_gt v today); split; congruence.
  - reflexivity.
  - by intros ->.
  - intros RT f c a q y e s. split.
    + intros (errs & Hnew & Hin). apply new_CandidateBase_inl in Hnew as ->.
      by apply FutureDate_in_field_errors in Hin.
    + intros Hgt.
      destruct (new_CandidateBase today f v c a q y e s) as [errs|b] eqn:Hnew.
      * exists errs. split; [reflexivity|].
        apply new_CandidateBase_inl in Hnew as ->.
        by apply FutureDate_in_field_errors.
      * apply new_CandidateBase_inr in Hnew as (_&H2&_).
        apply validate_dob_inr in H2 as [_ H2]. congruence.
Qed.

Lemma dob_rejected_iff_future_witness :
  validate_dob (mkdate 2026 1 15) (mkdate 2999 1 1) = inl FutureDate.
Proof.
  apply (proj1 (proj2 (proj2 (proj2
           (dob_rejected_iff_future (mkdate 2026 1 15) (mkdate 2999 1 1)))))).
  reflexivity.
Defined.

(** C7: [upload_candidate] answers with [UnsupportedFileType] exactly when
    the lower-cased extension of the uploaded file name is none of [.pdf],
    [.doc], [.docx]; the answer is then the 415 one, it changes nothing and
    carries that extension, or "unknown" when the extension is empty; a file
    named "resume.txt" is refused. *)
Theorem unsupported_file_type `{RT : Runtime}
    (io : upload_io) (form : upload_form) (st : state) :
  ((exists e status detail,
      (upload_candidate io form st).2 = HTTPException status detail
      /\ UnsupportedFileType e ∈ detail)
   <-> Resume_ext form ∉ ALLOWED_EXTENSIONS)
  /\ (Resume_ext form ∉ ALLOWED_EXTENSIONS ->
      upload_candidate io form st =
        (st, HTTPException 415
               [UnsupportedFileType
                  (if decide (Resume_ext form = []) then s2u "unknown"
                   else Resume_ext form)]))
  /\ (Resume_filename form = Some (s2u "resume.txt") ->
      upload_candidate io form st =
        (st, HTTPException 415 [UnsupportedFileType (s2u ".txt")])).
Proof.
  assert (Resume_ext form ∉ ALLOWED_EXTENSIONS ->
          upload_candidate io form st =
            (st, HTTPException 415
                   [UnsupportedFileType
                      (if decide (Resume_ext form = []) then s2u "unknown"
                       else Resume_ext form)])) as Hrej.
  { intros Hext. unfold upload_candidate.
    rewrite bool_decide_eq_false_2 by exact Hext. simpl.
    by destruct (Resume_ext form). }
  split; [|split; [exact Hrej|]].
  - split.
    + intros (e & status & detail & Hans & Hin) Hext.
      unfold upload_candidate in Hans.
      rewrite bool_decide_eq_true_2 in Hans by exact Hext. simpl in Hans.
      destruct (date_fromisoformat (form_DOB form)) as [dob|].
      * destruct (new_CandidateBase _ _ _ _ _ _ _ _ _) as [errs|base] eqn:Hnew.
        -- simpl in Hans. injection Hans as _ <-.
           apply new_CandidateBase_inl in Hnew as ->.
           apply field_errors_kinds in Hin.
           destruct Hin as [[fld Hin]|[Hin|[Hin|Hin]]]; discriminate.
        -- by apply store_candidate_answer in Hans.
      * simpl in Hans. injection Hans as _ <-.
        apply list_elem_of_singleton in Hin. discriminate.
    + intros Hext. rewrite (Hrej Hext). simpl. eexists _, _, _.
      split; [reflexivity|]. apply list_elem_of_here.
  - intros Hname.
    assert (Resume_ext form = s2u ".txt") as Hext
      by (unfold Resume_ext; rewrite Hname; reflexivity).
    rewrite Hrej; rewrite Hext; [reflexivity|].
    unfold ALLOWED_EXTENSIONS. rewrite !elem_of_cons, elem_of_nil.
    intros [H|[H|[H|[]]]]; discriminate.
Qed.

Lemma unsupported_file_type_witness :
  @upload_candidate ascii_runtime sample_io sample_txt_form (initial_state ∅)
  = (initial_state ∅, HTTPException 415 [UnsupportedFileType (s2u ".txt")]).
Proof.
  apply (proj2 (proj2 (@unsupported_file_type ascii_runtime sample_io
                         sample_txt_form (initial_state ∅)))).
  reflexivity.
Defined.

(** ** [_parse_skills] *)

Lemma str_split_nonempty (sep : char) (s : str) : str_split sep s <> [].
Proof. destruct s as [|c r]; simpl; [done|]. by repeat case_match. Qed.

(** Splitting loses nothing: the pieces joined by the separator are the
    string again, and no piece contains the separator. *)
Lemma str_split_join (sep : char) (s : str) :
  str_join sep (str_split sep s) = s.
Proof.
  induction s as [|c r IH]; [reflexivity|]. simpl.
  pose proof (str_split_nonempty sep r) as Hne.
  destruct (c =? sep)%N eqn:E.
  - apply N.eqb_eq in E as ->.
    destruct (str_split sep r) as [|p ps]; [done|]. simpl in *. by rewrite IH.
  - destruct (str_split sep r) as [|p ps]; [done|].
    destruct ps; simpl in *; by rewrite <- IH.
Qed.

Lemma str_split_no_sep (sep : char) (s : str) :
  Forall (fun p => sep ∉ p) (str_split sep s).
Proof.
  induction s as [|c r IH]; simpl.
  - repeat constructor. apply not_elem_of_nil.
  - destruct (c =? sep)%N eqn:E.
    + constructor; [apply not_elem_of_nil | exact IH].
    + apply N.eqb_neq in E.
      destruct (str_split sep r) as [|p ps]; [repeat constructor|].
      * rewrite list_elem_of_singleton. congruence.
      * apply Forall_cons in IH as [Hp Hps]. constructor; [|exact Hps].
        rewrite elem_of_cons. intros [->|H]; [congruence | by apply Hp].
Qed.

Section SkillFacts.
Context `{RT : Runtime}.

Lemma first_seen_filter (k : str) (l : list str) :
  filter (fun x => lower x <> k) (first_seen l)
  = first_seen (filter (fun x => lower x <> k) l).
Proof.
  induction l as [|s l IH]; [reflexivity|]. cbn [first_seen].
  rewrite (filter_cons _ s l), filter_cons.
  destruct (decide (lower s <> k)) as [Hs|Hs]; cbn [first_seen].
  - f_equal. rewrite <- IH. rewrite !list_filter_filter.
    apply list_filter_iff. intros x. tauto.
  - apply dec_stable in Hs. subst k. rewrite list_filter_filter, <- IH.
    apply list_filter_iff. intros x. tauto.
Qed.

(** The loop computes [first_seen] of the elements whose key is not yet in
    [seen], after what it has already collected. *)
Lemma unique_loop_first_seen (skills : list str) (seen : gset str)
    (unique : list str) :
  unique_loop skills seen unique
  = unique ++ first_seen (filter (fun x => lower x ∉ seen) skills).
Proof.
  revert seen unique.
  induction skills as [|s rest IH]; intros seen unique; simpl.
  - by rewrite app_nil_r.
  - rewrite filter_cons. destruct (decide (lower s ∈ seen)) as [Hin|Hin].
    + rewrite decide_False by (by intros ?). apply IH.
    + rewrite decide_True by exact Hin. rewrite IH, <- app_assoc.
      cbn [first_seen app]. do 2 f_equal.
      rewrite first_seen_filter, list_filter_filter.
      f_equal. apply list_filter_iff. intros x.
      rewrite not_elem_of_union, not_elem_of_singleton. tauto.
Qed.

Lemma parse_skills_first_seen (skills_raw : str) :
  _parse_skills skills_raw = first_seen (skill_pieces skills_raw).
Proof.
  unfold _parse_skills, skill_pieces.
  rewrite unique_loop_first_seen. simpl. f_equal.
  apply filter_fixed, Forall_forall. intros x _. apply not_elem_of_empty.
Qed.

Lemma first_seen_sublist (l : list str) : first_seen l `sublist_of` l.
Proof.
  induction l as [|s l IH]; simpl; [constructor|].
  apply sublist_skip. etrans; [apply sublist_filter | exact IH].
Qed.

Lemma first_seen_NoDup (l : list str) : NoDup (map lower (first_seen l)).
Proof.
  induction l as [|s l IH]; simpl; [constructor|].
  change (map lower ?x) with (lower <$> x) in *.
  apply NoDup_cons. split.
  - intros (x & Hx & Hin)%list_elem_of_fmap.
    apply list_elem_of_filter in Hin as [Hne _]. congruence.
  - eapply sublist_NoDup; [exact IH | apply fmap_sublist, sublist_filter].
Qed.

(** Every key of the input is represented. *)
Lemma first_seen_complete (l : list str) (s : str) :
  s ∈ l -> lower s ∈ map lower (first_seen l).
Proof.
  change (map lower ?x) with (lower <$> x).
  induction l as [|x l IH]; [by intros ?%elem_of_nil|].
  rewrite elem_of_cons. intros Hs. cbn [first_seen]. rewrite fmap_cons, elem_of_cons.
  destruct (decide (lower s = lower x)) as [Heq|Hne]; [by left|right].
  destruct Hs as [->|Hs]; [done|].
  apply IH in Hs. apply list_elem_of_fmap in Hs as (y & Hy & Hin).
  apply list_elem_of_fmap. exists y. split; [exact Hy|].
  apply list_elem_of_filter. split; [congruence | exact Hin].
Qed.

(** An element with no equal-keyed element before it is kept itself. *)
Lemma first_seen_first (l1 l2 : list str) (s : str) :
  lower s ∉ map lower l1 -> s ∈ first_seen (l1 ++ s :: l2).
Proof.
  change (map lower ?x) with (lower <$> x).
  induction l1 as [|x l1 IH]; simpl; intros Hnot.
  - apply list_elem_of_here.
  - rewrite not_elem_of_cons in Hnot. destruct Hnot as [Hx Hnot].
    apply list_elem_of_further, list_elem_of_filter. split; [done | by apply IH].
Qed.

Lemma skill_pieces_clean (skills_raw : str) :
  Forall clean_skill (skill_pieces skills_raw).
Proof.
  unfold skill_pieces. apply Forall_forall. intros s Hs.
  apply list_elem_of_filter in Hs as [Hne Hs]. split.
  - by apply nonempty_true.
  - change (map ?f ?x) with (f <$> x) in Hs.
    apply list_elem_of_fmap in Hs as (x & -> & _). apply strip_idemp.
Qed.

(** A clean skill is not made of whitespace only. *)
Lemma clean_skill_not_blank (s : str) :
  clean_skill s -> forallb isspace s = false.
Proof.
  intros [Hne Hs]. destruct s as [|c r]; [done|]. simpl.
  rewrite (strip_head isspace (c :: r) c); [reflexivity|]. by rewrite Hs.
Qed.

End SkillFacts.

(** C4: [_parse_skills] works on the comma-separated pieces, stripped and
    with the empty ones dropped, and keeps of them the first of every group
    that is equal case-insensitively, as written and in order.  So its
    output has no two elements with the same lower-case form, is a
    subsequence of the pieces, represents every piece, keeps a piece that no
    earlier piece equals case-insensitively, and holds no element that is
    empty, unstripped or made of whitespace only; "Python, python, SQL" gives
    ["Python", "SQL"]. *)
Theorem parse_skills_dedup `{RT : Runtime} (skills_raw : str) :
  _parse_skills skills_raw = first_seen (skill_pieces skills_raw)
  /\ NoDup (map lower (_parse_skills skills_raw))
  /\ _parse_skills skills_raw `sublist_of` skill_pieces skills_raw
  /\ (forall s, s ∈ skill_pieces skills_raw ->
        lower s ∈ map lower (_parse_skills skills_raw))
  /\ (forall l1 s l2, skill_pieces skills_raw = l1 ++ s :: l2 ->
        lower s ∉ map lower l1 -> s ∈ _parse_skills skills_raw)
  /\ Forall (fun s => s <> [] /\ strip isspace s = s
                      /\ forallb isspace s = false)
       (_parse_skills skills_raw)
  /\ _parse_skills (s2u "Python, python, SQL") = [s2u "Python"; s2u "SQL"].
Proof.
  rewrite (parse_skills_first_seen skills_raw).
  split; [reflexivity|].
  split; [apply first_seen_NoDup|].
  split; [apply first_seen_sublist|].
  split; [apply first_seen_complete|].
  split; [|split].
  - intros l1 s l2 -> Hnot. by apply first_seen_first.
  - pose proof (skill_pieces_clean skills_raw) as Hclean.
    rewrite Forall_forall in Hclean. apply Forall_forall. intros s Hs.
    apply (sublist_subseteq _ _ (first_seen_sublist _)) in Hs.
    pose proof (Hclean s Hs) as Hc. pose proof (clean_skill_not_blank s Hc).
    destruct Hc. auto.
  - vm_compute. reflexivity.
Qed.

(** ** [_get_unique_save_path] *)

Lemma skip_leading_dots_cases (p : str) (dotIndex filenameIndex : Z) (steps : nat) :
  skip_leading_dots p dotIndex filenameIndex steps = (p, [])
  \/ skip_leading_dots p dotIndex filenameIndex steps
     = (slice_to p dotIndex, slice_from p dotIndex).
Proof.
  revert filenameIndex. induction steps as [|k IH]; intros i; simpl.
  - by left.
  - case_bool_decide; [apply IH | by right].
Qed.

Lemma splitext_cases (p : str) :
  splitext p = (p, []) \/ exists n, splitext p = (take n p, drop n p).
Proof.
  unfold splitext. case_match; [|by left].
  destruct (skip_leading_dots_cases p (rfind p 46%N) (rfind p 47%N + 1)
              (Z.to_nat (rfind p 46%N - (rfind p 47%N + 1)))) as [-> | ->].
  - by left.
  - right. by eexists.
Qed.

(** Base and extension split the name. *)
Lemma splitext_app (p : str) : (splitext p).1 ++ (splitext p).2 = p.
Proof.
  destruct (splitext_cases p) as [-> | [n ->]]; simpl.
  - apply app_nil_r.
  - apply take_drop.
Qed.

Lemma startswith_sep_base (p r : str) :
  startswith_sep p = false ->
  startswith_sep ((splitext p).1 ++ 95%N :: r) = false.
Proof.
  intros Hp. destruct (splitext_cases p) as [-> | [n ->]]; simpl.
  - by destruct p.
  - by destruct n, p.
Qed.

Lemma path_join_UPLOAD_DIR (name : str) :
  startswith_sep name = false ->
  path_join UPLOAD_DIR name = s2u "uploads/" ++ name.
Proof. intros H. unfold path_join. rewrite H. reflexivity. Qed.

Lemma safe_filename_no_sep (name : str) :
  startswith_sep (_safe_filename name) = false.
Proof.
  pose proof (safe_filename_Forall name) as H.
  destruct (_safe_filename name) as [|c r]; [reflexivity|].
  apply Forall_cons in H as [Hc _]. simpl.
  destruct (c =? 47)%N eqn:E; [|reflexivity].
  apply N.eqb_eq in E as ->. discriminate.
Qed.

Lemma get_unique_save_path_cases (fs : filesystem) (candidate_id : Z) (name : str) :
  _get_unique_save_path fs candidate_id name =
    if path_exists fs (preferred_path name) then suffixed_path candidate_id name
    else preferred_path name.
Proof.
  unfold _get_unique_save_path, preferred_path, suffixed_path.
  destruct (splitext (_safe_filename name)) as [base ext] eqn:E.
  rewrite path_join_UPLOAD_DIR by apply safe_filename_no_sep.
  destruct (path_exists fs _); simpl; [|reflexivity].
  apply path_join_UPLOAD_DIR.
  change base with (base, ext).1. rewrite <- E.
  apply (startswith_sep_base _ (40%N :: _)), safe_filename_no_sep.
Qed.

Lemma path_exists_insert (fs : filesystem) (p q : str) (content : bytes) :
  path_exists (<[p := content]> fs) q
  = path_exists fs q || (nonempty q && bool_decide (p = q)).
Proof.
  destruct q as [|c r]; [reflexivity|]. simpl.
  apply eq_true_iff_eq.
  rewrite orb_true_iff, !bool_decide_eq_true, lookup_insert_is_Some.
  destruct (decide (p = c :: r)); tauto.
Qed.

Lemma preferred_path_cv : preferred_path (s2u "cv.pdf") = s2u "uploads/cv.pdf".
Proof. reflexivity. Qed.

Lemma suffixed_path_cv (candidate_id : Z) :
  suffixed_path candidate_id (s2u "cv.pdf")
  = s2u "uploads/cv_(" ++ str_of_int candidate_id ++ s2u ").pdf".
Proof.
  unfold suffixed_path.
  replace (splitext (_safe_filename (s2u "cv.pdf"))) with (s2u "cv", s2u ".pdf")
    by (vm_compute; reflexivity).
  reflexivity.
Qed.

(** C2: [_get_unique_save_path] returns [uploads/<safe name>] when no file
    exists there and [uploads/<base>_(<id>)<extension>] otherwise, where base
    and extension split the safe name; it looks no further, also when the
    second path is taken.  When two uploads in a row both bring a file named
    "cv.pdf", the second is stored at [uploads/cv_(<its id>).pdf]. *)
Theorem unique_save_path_resolution (fs : filesystem) (candidate_id : Z) (name : str) :
  (splitext (_safe_filename name)).1 ++ (splitext (_safe_filename name)).2
    = _safe_filename name
  /\ _get_unique_save_path fs candidate_id name
     = (if path_exists fs (preferred_path name)
        then suffixed_path candidate_id name
        else preferred_path name)
  /\ (path_exists fs (preferred_path name) = true ->
      path_exists fs (suffixed_path candidate_id name) = true ->
      _get_unique_save_path fs candidate_id name = suffixed_path candidate_id name)
  /\ (forall (RT : Runtime) io1 io2 form1 form2 st st1 st2 c1 c2,
        Resume_filename form1 = Some (s2u "cv.pdf") ->
        Resume_filename form2 = Some (s2u "cv.pdf") ->
        upload_candidate io1 form1 st = (st1, Returned c1) ->
        upload_candidate io2 form2 st1 = (st2, Returned c2) ->
        out_id c2 = out_id c1 + 1
        /\ resume_path c2
           = s2u "uploads/cv_(" ++ str_of_int (out_id c2) ++ s2u ").pdf").
Proof.
  split; [apply splitext_app|].
  split; [apply get_unique_save_path_cases|].
  split.
  - intros H1 _. by rewrite get_unique_save_path_cases, H1.
  - intros RT io1 io2 form1 form2 st st1 st2 c1 c2 Hf1 Hf2 Hup1 Hup2.
    apply upload_candidate_Returned in Hup1
      as (dob1&base1&content1&_&_&_&_&_&_&->&->).
    apply upload_candidate_Returned in Hup2
      as (dob2&base2&content2&_&_&_&_&_&_&->&_).
    cbn [out_id resume_path NEXT_ID]. split; [reflexivity|].
    unfold stored_path_of. cbn [files NEXT_ID]. rewrite Hf1, Hf2.
    change (filename_or (Some (s2u "cv.pdf")) (s2u "resume")) with (s2u "cv.pdf").
    rewrite !get_unique_save_path_cases, preferred_path_cv, !suffixed_path_cv.
    rewrite path_exists_insert.
    destruct (path_exists (files st) (s2u "uploads/cv.pdf")); [reflexivity|].
    rewrite bool_decide_eq_true_2 by reflexivity. reflexivity.
Qed.

Lemma unique_save_path_resolution_witness :
  (exists c1, first_upload.2 = Returned c1)
  /\ resume_path <$> returned second_upload.2 = Some (s2u "uploads/cv_(2).pdf").
Proof.
  assert (exists c1, first_upload.2 = Returned c1) as [c1 H1]
    by (vm_compute; eexists; reflexivity).
  assert (exists c2, second_upload.2 = Returned c2) as [c2 H2]
    by (vm_compute; eexists; reflexivity).
  split; [by exists c1|].
  destruct (proj2 (proj2 (proj2 (unique_save_path_resolution ∅ 0 [])))
              ascii_runtime sample_io sample_io sample_form sample_form
              (initial_state ∅) first_upload.1 second_upload.1 c1 c2
              eq_refl eq_refl) as [Hid Hpath].
  - rewrite <- H1. apply surjective_pairing.
  - rewrite <- H2. apply surjective_pairing.
  - rewrite H2. simpl. rewrite Hpath. f_equal.
    assert (out_id c2 = 2) as ->; [|reflexivity].
    assert (out_id <$> returned second_upload.2 = Some 2) as Hc
      by (vm_compute; reflexivity).
    rewrite H2 in Hc. by injection Hc.
Defined.

(** ** Deleting *)

Lemma set_CANDIDATES_same (st : state) : set_CANDIDATES (CANDIDATES st) st = st.
Proof. by destruct st. Qed.

Lemma delete_candidate_absent (io : delete_io) (candidate_id : Z) (st : state) :
  dict_get candidate_id (CANDIDATES st) = None ->
  delete_candidate io candidate_id st = (st, HTTPException 404 [NotFound]).
Proof.
  intros H. unfold delete_candidate, dict_pop. rewrite H.
  by rewrite dict_remove_absent, set_CANDIDATES_same.
Qed.

Lemma delete_candidate_present (io : delete_io) (candidate_id : Z) (st : state)
    (c : CandidateOut) :
  dict_get candidate_id (CANDIDATES st) = Some c ->
  delete_candidate io candidate_id st =
    ({| CANDIDATES := dict_remove candidate_id (CANDIDATES st);
        NEXT_ID := NEXT_ID st;
        files :=
          if nonempty (resume_path c) && path_exists (files st) (resume_path c)
          then (if remove_raises io then files st
                else delete (resume_path c) (files st))
          else files st |},
     Returned deleted_successfully).
Proof.
  intros H. unfold delete_candidate, dict_pop. rewrite H. simpl.
  by destruct (nonempty _ && path_exists _ _), (remove_raises io).
Qed.

Lemma delete_candidate_store (io : delete_io) (candidate_id : Z) (st : state) :
  CANDIDATES (delete_candidate io candidate_id st).1
  = dict_remove candidate_id (CANDIDATES st)
  /\ NEXT_ID (delete_candidate io candidate_id st).1 = NEXT_ID st.
Proof.
  destruct (dict_get candidate_id (CANDIDATES st)) as [c|] eqn:E.
  - by rewrite (delete_candidate_present _ _ _ _ E).
  - rewrite (delete_candidate_absent _ _ _ E). simpl.
    by rewrite dict_remove_absent.
Qed.

Lemma path_exists_delete (fs : filesystem) (p : str) :
  path_exists (delete p fs) p = false.
Proof.
  destruct p as [|c r]; [reflexivity|]. simpl.
  rewrite lookup_delete_eq. apply bool_decide_eq_false_2. by intros [? ?].
Qed.

(** C8: deleting a stored record answers "deleted successfully" whether or
    not the file can be removed; afterwards the id has no entry, looking it
    up answers [NotFound], every listing shows only records stored under
    other ids (hence not the deleted one, when ids are allocated by the
    service), the resume file is gone unless [os.remove] raised, and a file
    that was already missing changes nothing about that.  Deleting an id
    that has no record answers [NotFound] and changes nothing. *)
Theorem delete_removes_record `{RT : Runtime}
    (io : delete_io) (candidate_id : Z) (st : state) :
  (forall c, dict_get candidate_id (CANDIDATES st) = Some c ->
     (delete_candidate io candidate_id st).2 = Returned deleted_successfully
     /\ dict_get candidate_id (CANDIDATES (delete_candidate io candidate_id st).1) = None
     /\ get_candidate candidate_id (delete_candidate io candidate_id st).1
        = HTTPException 404 [NotFound]
     /\ (forall skill m y x,
           x ∈ list_candidates skill m y (delete_candidate io candidate_id st).1 ->
           exists k, k <> candidate_id /\ (k, x) ∈ CANDIDATES st)
     /\ (ids_allocated st -> forall skill m y,
           c ∉ list_candidates skill m y (delete_candidate io candidate_id st).1)
     /\ (remove_raises io = false ->
         path_exists (files (delete_candidate io candidate_id st).1) (resume_path c)
         = false)
     /\ (path_exists (files st) (resume_path c) = false ->
         files (delete_candidate io candidate_id st).1 = files st))
  /\ (dict_get candidate_id (CANDIDATES st) = None ->
      delete_candidate io candidate_id st = (st, HTTPException 404 [NotFound])).
Proof.
  split; [|apply delete_candidate_absent].
  intros c Hc. rewrite (delete_candidate_present io _ _ _ Hc). cbn [fst snd CANDIDATES files].
  assert (forall skill m y x,
            x ∈ list_candidates skill m y
                  {| CANDIDATES := dict_remove candidate_id (CANDIDATES st);
                     NEXT_ID := NEXT_ID st;
                     files :=
                       if nonempty (resume_path c)
                          && path_exists (files st) (resume_path c)
                       then (if remove_raises io then files st
                             else delete (resume_path c) (files st))
                       else files st |} ->
            exists k, k <> candidate_id /\ (k, x) ∈ CANDIDATES st) as Hlist.
  { intros skill m y x Hx. apply list_candidates_stored in Hx.
    apply elem_of_dict_values in Hx as [k Hk]. cbn [CANDIDATES] in Hk.
    apply elem_of_dict_remove in Hk. by exists k. }
  split; [reflexivity|].
  split; [apply dict_get_remove_eq|].
  split; [unfold get_candidate; cbn [CANDIDATES]; by rewrite dict_get_remove_eq|].
  split; [exact Hlist|].
  split; [|split].
  - intros (_ & _ & Hids) skill m y Hin.
    destruct (Hlist _ _ _ _ Hin) as (k & Hne & Hk).
    apply Hids in Hk as [Hk _]. apply dict_get_Some_elem, Hids in Hc as [Hc _].
    congruence.
  - intros ->. destruct (nonempty (resume_path c)) eqn:Hn; simpl.
    + destruct (path_exists (files st) (resume_path c)) eqn:He; [|exact He].
      apply path_exists_delete.
    + by destruct (resume_path c).
  - intros ->. by rewrite andb_false_r.
Qed.

Lemma delete_removes_record_witness :
  (delete_candidate {| remove_raises := false |} 1 first_upload.1).2
    = Returned deleted_successfully
  /\ get_candidate 1 (delete_candidate {| remove_raises := false |} 1 first_upload.1).1
     = HTTPException 404 [NotFound]
  /\ delete_candidate {| remove_raises := true |} 7 first_upload.1
     = (first_upload.1, HTTPException 404 [NotFound]).
Proof.
  assert (exists c, dict_get 1 (CANDIDATES first_upload.1) = Some c) as [c Hc]
    by (vm_compute; eexists; reflexivity).
  destruct (proj1 (@delete_removes_record ascii_runtime
                     {| remove_raises := false |} 1 first_upload.1) c Hc)
    as (Hans & _ & Hget & _).
  split; [exact Hans|]. split; [exact Hget|].
  apply (proj2 (@delete_removes_record ascii_runtime
                  {| remove_raises := true |} 7 first_upload.1)).
  vm_compute. reflexivity.
Defined.

(** C10: deleting an id leaves the id counter as it was and the entry of
    every other id as it was (its value, its place in the store and what
    looking it up answers), whether or not the id had a record; no file
    other than the deleted record's own is touched. *)
Theorem delete_frame (io : delete_io) (candidate_id : Z) (st : state) :
  NEXT_ID (delete_candidate io candidate_id st).1 = NEXT_ID st
  /\ CANDIDATES (delete_candidate io candidate_id st).1
     = dict_remove candidate_id (CANDIDATES st)
  /\ (forall k, k <> candidate_id ->
        dict_get k (CANDIDATES (delete_candidate io candidate_id st).1)
        = dict_get k (CANDIDATES st))
  /\ (forall k, k <> candidate_id ->
        get_candidate k (delete_candidate io candidate_id st).1
        = get_candidate k st)
  /\ (forall k c, k <> candidate_id ->
        (k, c) ∈ CANDIDATES (delete_candidate io candidate_id st).1
        <-> (k, c) ∈ CANDIDATES st)
  /\ (forall p, (forall c, dict_get candidate_id (CANDIDATES st) = Some c ->
                           p <> resume_path c) ->
        files (delete_candidate io candidate_id st).1 !! p = files st !! p).
Proof.
  destruct (delete_candidate_store io candidate_id st) as [Hd Hn].
  split; [exact Hn|]. split; [exact Hd|].
  split; [|split; [|split]].
  - intros k Hk. rewrite Hd. by apply dict_get_remove_ne.
  - intros k Hk. unfold get_candidate. rewrite Hd.
    by rewrite dict_get_remove_ne.
  - intros k c Hk. rewrite Hd, elem_of_dict_remove. tauto.
  - intros p Hp.
    destruct (dict_get candidate_id (CANDIDATES st)) as [c|] eqn:E.
    + rewrite (delete_candidate_present _ _ _ _ E). cbn [fst files].
      destruct (nonempty _ && path_exists _ _), (remove_raises io);
        try reflexivity.
      apply lookup_delete_ne. intros Heq. by apply (Hp c).
    + by rewrite (delete_candidate_absent _ _ _ E).
Qed.

(** ** Creating *)

Section UploadFacts.
Context `{RT : Runtime}.

(** A rejected upload changes nothing. *)
Lemma upload_candidate_HTTPException (io : upload_io) (form : upload_form)
    (st st' : state) (status : Z) (detail : list rejection) :
  upload_candidate io form st = (st', HTTPException status detail) -> st' = st.
Proof.
  unfold upload_candidate.
  destruct (negb _); [by intros [= <-]|].
  destruct (date_fromisoformat _); [|by intros [= <-]].
  destruct (new_CandidateBase _ _ _ _ _ _ _ _ _); [by intros [= <-]|].
  intros H. exfalso.
  eapply store_candidate_answer. by erewrite H.
Qed.

(** An upload that raises got as far as [store_candidate]. *)
Lemma upload_candidate_Uncaught (io : upload_io) (form : upload_form)
    (st st' : state) :
  upload_candidate io form st = (st', Uncaught) ->
  exists base, store_candidate io base (Resume_filename form) st = (st', Uncaught).
Proof.
  unfold upload_candidate.
  destruct (negb _); [discriminate|].
  destruct (date_fromisoformat _); [|discriminate].
  destruct (new_CandidateBase _ _ _ _ _ _ _ _ _) as [|base]; [discriminate|].
  intros H. by exists base.
Qed.

Lemma ids_allocated_initial (fs : filesystem) : ids_allocated (initial_state fs).
Proof.
  split; simpl; [constructor|]. split; [lia|]. by intros k c ?%elem_of_nil.
Qed.

(** The next id is not in use. *)
Lemma ids_allocated_fresh (st : state) :
  ids_allocated st -> dict_get (NEXT_ID st) (CANDIDATES st) = None.
Proof.
  intros (_ & _ & Hids).
  destruct (dict_get (NEXT_ID st) (CANDIDATES st)) as [c|] eqn:E; [|reflexivity].
  apply dict_get_Some_elem, Hids in E. lia.
Qed.

Lemma ids_allocated_upload (io : upload_io) (form : upload_form) (st : state) :
  ids_allocated st -> ids_allocated (upload_candidate io form st).1.
Proof.
  intros Hst. pose proof Hst as (Hnd & Hpos & Hids).
  destruct (upload_candidate io form st) as [st' [c|status detail|]] eqn:E; simpl.
  - apply upload_candidate_Returned in E as (dob&base&content&_&_&_&_&_&_&Hc&->).
    unfold ids_allocated. cbn [CANDIDATES NEXT_ID].
    rewrite dict_set_absent by (by apply ids_allocated_fresh).
    rewrite map_app. split; [|split; [lia|]].
    + apply NoDup_app. repeat split; [exact Hnd| |apply NoDup_singleton].
      intros k Hk Hk'. apply list_elem_of_singleton in Hk'.
      change (map fst ?l) with (fst <$> l) in Hk.
      apply list_elem_of_fmap in Hk as ([k0 c'] & Hk & Hin). simpl in Hk.
      apply Hids in Hin. simpl in Hk'. lia.
    + intros k c'. rewrite elem_of_app, list_elem_of_singleton.
      intros [Hin|Heq].
      * apply Hids in Hin. lia.
      * injection Heq as -> ->. rewrite Hc. simpl. lia.
  - by apply upload_candidate_HTTPException in E as ->.
  - apply upload_candidate_Uncaught in E as [base E].
    apply store_candidate_Uncaught in E as (Hc & Hn & _).
    unfold ids_allocated. rewrite Hc, Hn. split; [exact Hnd|]. split; [lia|].
    intros k c Hin. apply Hids in Hin. lia.
Qed.

Lemma ids_allocated_delete (io : delete_io) (candidate_id : Z) (st : state) :
  ids_allocated st -> ids_allocated (delete_candidate io candidate_id st).1.
Proof.
  intros (Hnd & Hpos & Hids).
  destruct (delete_candidate_store io candidate_id st) as [Hd Hn].
  unfold ids_allocated. rewrite Hd, Hn. split; [|split; [exact Hpos|]].
  - by apply dict_remove_NoDup.
  - intros k c Hin. apply elem_of_dict_remove in Hin as [_ Hin]. by apply Hids.
Qed.

Lemma reachable_ids_allocated (st : state) : reachable st -> ids_allocated st.
Proof.
  intros [fs Hrtc]. revert st Hrtc. apply rtc_ind_r.
  - apply ids_allocated_initial.
  - intros st1 st2 _ Hstep IH.
    destruct Hstep; [by apply ids_allocated_upload | by apply ids_allocated_delete].
Qed.

End UploadFacts.

(** The sample upload when the disk fills up during the write: the request
    fails, and afterwards a two-byte [uploads/cv.pdf] that was not there
    before is on disk, the store holds no record at all, and the id counter
    has moved from 1 to 2. *)
Lemma failed_upload_leaves_file :
  failed_upload.2 = Uncaught
  /\ (∅ : filesystem) !! s2u "uploads/cv.pdf" = None
  /\ files failed_upload.1 !! s2u "uploads/cv.pdf" = Some [Byte.x25; Byte.x50]
  /\ CANDIDATES failed_upload.1 = []
  /\ NEXT_ID (initial_state ∅) = 1
  /\ NEXT_ID failed_upload.1 = 2.
Proof. vm_compute. repeat split. Qed.

(** C1 (as the code has it): when a creation request fails after the id has
    been allocated, the store is left as it was, so no record for that id is
    observable; nothing else is undone.  The id stays consumed; the disk is
    as it was only when the upload could not be read or the file could not
    be opened; a write that raises after the file was opened leaves what was
    written at the resolved path, and in every case at most that one path
    has changed. *)
Theorem failed_upload_effects `{RT : Runtime}
    (io : upload_io) (form : upload_form) (st st' : state) :
  upload_candidate io form st = (st', Uncaught) ->
  CANDIDATES st' = CANDIDATES st
  /\ (ids_allocated st -> dict_get (NEXT_ID st) (CANDIDATES st') = None)
  /\ NEXT_ID st' = NEXT_ID st + 1
  /\ (Resume_read io = None \/ file_write io = OpenRaises -> files st' = files st)
  /\ (forall partial,
        Resume_read io <> None -> file_write io = WriteRaises partial ->
        files st' = <[stored_path_of (Resume_filename form) st := partial]> (files st))
  /\ (forall p, p <> stored_path_of (Resume_filename form) st ->
        files st' !! p = files st !! p).
Proof.
  intros Hup. apply upload_candidate_Uncaught in Hup as [base Hup].
  apply store_candidate_Uncaught in Hup as (Hc & Hn & Hfiles).
  split; [exact Hc|]. split; [|split; [exact Hn|]].
  { intros Hids. rewrite Hc. by apply ids_allocated_fresh. }
  destruct Hfiles as [[Hf Hio]|[(content & partial & Hr & Hw & Hf)
    |[(content & Hr & Hw & _ & Hf)|(content & errs & Hr & Hw & _ & Hf)]]].
  - split; [done|]. split; [|by rewrite Hf].
    intros partial Hr Hw. destruct Hio; congruence.
  - split; [intros [?|?]; congruence|]. split.
    + intros partial' _ Hw'. congruence.
    + intros p Hp. rewrite Hf. by apply lookup_insert_ne.
  - split; [intros [?|?]; congruence|]. split.
    + intros partial' _ Hw'. congruence.
    + intros p Hp. rewrite Hf. by apply lookup_insert_ne.
  - split; [intros [?|?]; congruence|]. split.
    + intros partial' _ Hw'. congruence.
    + intros p Hp. rewrite Hf. by apply lookup_insert_ne.
Qed.

Lemma failed_upload_effects_witness :
  CANDIDATES failed_upload.1 = []
  /\ NEXT_ID failed_upload.1 = 2
  /\ dict_get 1 (CANDIDATES failed_upload.1) = None.
Proof.
  assert (failed_upload = (failed_upload.1, Uncaught)) as H
    by (vm_compute; reflexivity).
  destruct (@failed_upload_effects ascii_runtime disk_full_io sample_form
              (initial_state ∅) failed_upload.1 H) as (Hc & Hid & Hn & _).
  split; [exact Hc|]. split; [exact Hn|].
  apply Hid, ids_allocated_initial.
Defined.

(** * Further properties of the code *)

(** ** Stripping and blank strings *)

Lemma lstrip_nil_iff (p : char -> bool) (s : str) :
  lstrip p s = [] <-> forallb p s = true.
Proof.
  induction s as [|c r IH]; simpl; [done|].
  destruct (p c); simpl; [exact IH|]. split; discriminate.
Qed.

(** [strip] leaves nothing exactly of the strings made of stripped
    characters only. *)
Lemma strip_nil_iff (p : char -> bool) (s : str) :
  strip p s = [] <-> forallb p s = true.
Proof.
  rewrite <- lstrip_nil_iff. unfold strip.
  destruct (lstrip p s) as [|c r] eqn:E; [done|].
  pose proof (lstrip_head _ _ _ _ E) as Hc.
  destruct (rstrip_keeps_head p c r Hc) as [r' ->]. split; discriminate.
Qed.

Section SkillsValidation.
Context `{RT : Runtime}.

Lemma validate_skills_kept (v : list str) :
  filter (fun s => nonempty s && nonempty (strip isspace s) = true) v
  = filter (fun s => forallb isspace s = false) v.
Proof.
  apply list_filter_iff. intros s.
  rewrite andb_true_iff, !nonempty_true, <- not_true_iff_false, <- strip_nil_iff.
  split; [tauto|]. intros Hs. split; [|exact Hs]. by intros ->.
Qed.

Lemma validate_skills_inr_eq (v cleaned : list str) :
  validate_skills v = inr cleaned ->
  cleaned = map (strip isspace) (filter (fun s => forallb isspace s = false) v).
Proof.
  unfold validate_skills. rewrite validate_skills_kept.
  destruct (map _ _); [discriminate | by intros [= <-]].
Qed.

(** X1: [validate_skills] strips every skill that is not blank (empty or
    whitespace only), drops the blank ones and keeps the order; it answers
    [EmptySkills] exactly when every element is blank, and what it returns
    passes it again unchanged. *)
Theorem validate_skills_drops_blank (v : list str) :
  (validate_skills v = inl EmptySkills
   <-> Forall (fun s => forallb isspace s = true) v)
  /\ (forall cleaned, validate_skills v = inr cleaned <->
        cleaned = map (strip isspace) (filter (fun s => forallb isspace s = false) v)
        /\ cleaned <> [])
  /\ (forall cleaned, validate_skills v = inr cleaned ->
        Forall clean_skill cleaned /\ validate_skills cleaned = inr cleaned).
Proof.
  assert (forall l : list str, map (strip isspace) l = [] <-> l = []) as Hmap
    by (intros [|? ?]; simpl; split; congruence).
  assert (filter (fun s => forallb isspace s = false) v = []
          <-> Forall (fun s => forallb isspace s = true) v) as Hblank.
  { rewrite Forall_forall. split.
    - intros Hnil s Hs. destruct (forallb isspace s) eqn:E; [reflexivity|].
      exfalso. eapply filter_nil_not_elem_of; [exact Hnil| |exact Hs]. exact E.
    - intros Hall. apply elem_of_nil_inv. intros s Hs.
      apply list_elem_of_filter in Hs as [Hs Hin]. rewrite (Hall s Hin) in Hs.
      discriminate. }
  split; [|split].
  - unfold validate_skills. rewrite validate_skills_kept, <- Hblank, <- Hmap.
    destruct (map _ _); split; congruence.
  - intros cleaned. unfold validate_skills. rewrite validate_skills_kept.
    destruct (map _ _) as [|x l]; split.
    + discriminate.
    + by intros [-> ?].
    + by intros [= <-].
    + by intros [-> _].
  - intros cleaned H. pose proof (validate_skills_inr _ _ H) as [Hne Hall].
    split; [exact Hall | by apply validate_skills_clean].
Qed.

End SkillsValidation.

Lemma validate_skills_drops_blank_witness :
  @validate_skills ascii_runtime [s2u " Go "; s2u "  "; []; s2u "Rust"]
  = inr [s2u "Go"; s2u "Rust"]
  /\ @validate_skills ascii_runtime [s2u "Go"; s2u "Rust"]
     = inr [s2u "Go"; s2u "Rust"].
Proof.
  assert (@validate_skills ascii_runtime [s2u " Go "; s2u "  "; []; s2u "Rust"]
          = inr [s2u "Go"; s2u "Rust"]) as H by (vm_compute; reflexivity).
  split; [exact H|].
  exact (proj2 (proj2 (proj2 (@validate_skills_drops_blank ascii_runtime _)) _ H)).
Defined.

Section SkillsComposition.
Context `{RT : Runtime}.

Lemma first_seen_nil (l : list str) : first_seen l = [] <-> l = [].
Proof. destruct l; simpl; split; congruence. Qed.

Lemma skill_pieces_nil (skills_raw : str) :
  skill_pieces skills_raw = []
  <-> Forall (fun s => forallb isspace s = true) (str_split 44%N skills_raw).
Proof.
  unfold skill_pieces. rewrite Forall_forall. split.
  - intros Hnil s Hs. apply strip_nil_iff.
    destruct (strip isspace s) as [|c r] eqn:E; [reflexivity|]. exfalso.
    eapply (filter_nil_not_elem_of _ _ (c :: r)); [exact Hnil|reflexivity|].
    change (map ?f ?x) with (f <$> x). apply list_elem_of_fmap. by exists s.
  - intros Hall. apply elem_of_nil_inv. intros s Hs.
    apply list_elem_of_filter in Hs as [Hs Hin].
    change (map ?f ?x) with (f <$> x) in Hin.
    apply list_elem_of_fmap in Hin as (x & -> & Hx).
    apply Hall, strip_nil_iff in Hx. rewrite Hx in Hs. discriminate.
Qed.

Lemma parse_skills_clean (skills_raw : str) :
  Forall clean_skill (_parse_skills skills_raw).
Proof.
  rewrite parse_skills_first_seen.
  pose proof (skill_pieces_clean skills_raw) as Hclean.
  rewrite Forall_forall in Hclean. apply Forall_forall. intros s Hs.
  apply Hclean, (sublist_subseteq _ _ (first_seen_sublist _)), Hs.
Qed.

Lemma skills_field_parsed (skills_raw : str) :
  skills_field (_parse_skills skills_raw)
  = if decide (_parse_skills skills_raw = []) then inl EmptySkills
    else inr (_parse_skills skills_raw).
Proof.
  case_decide as Hnil.
  - by rewrite Hnil.
  - unfold skills_field. rewrite validate_skills_clean by
      (done || apply parse_skills_clean).
    destruct (_parse_skills skills_raw) as [|x l]; [done|].
    replace (1 <=? len (x :: l)) with true; [reflexivity|].
    symmetry. apply Z.leb_le. unfold len. simpl. lia.
Qed.

End SkillsComposition.

(** X2: what [_parse_skills] returns passes the [Skills] field unchanged
    unless it is empty, which is the case exactly when every comma-separated
    piece is blank; so a stored record holds [_parse_skills] of the submitted
    string, and a submission without any skill is answered 422 with
    [EmptySkills] once its file type and date format are accepted. *)
Theorem parsed_skills_stored `{RT : Runtime} (skills_raw : str) :
  skills_field (_parse_skills skills_raw)
  = (if decide (_parse_skills skills_raw = []) then inl EmptySkills
     else inr (_parse_skills skills_raw))
  /\ (_parse_skills skills_raw = []
      <-> Forall (fun s => forallb isspace s = true) (str_split 44%N skills_raw))
  /\ (forall io form st st' c,
        form_Skills form = skills_raw ->
        upload_candidate io form st = (st', Returned c) ->
        Skills (out_base c) = _parse_skills skills_raw)
  /\ (forall io form st,
        form_Skills form = skills_raw ->
        _parse_skills skills_raw = [] ->
        Resume_ext form ∈ ALLOWED_EXTENSIONS ->
        date_fromisoformat (form_DOB form) <> None ->
        exists detail,
          upload_candidate io form st = (st, HTTPException 422 detail)
          /\ EmptySkills ∈ detail).
Proof.
  split; [apply skills_field_parsed|]. split; [|split].
  - rewrite parse_skills_first_seen, first_seen_nil. apply skill_pieces_nil.
  - intros io form st st' c <- Hup.
    apply upload_candidate_Returned in Hup
      as (dob&base&content&_&_&Hbase&_&_&_&->&_).
    simpl. apply new_CandidateBase_inr in Hbase as (_&_&_&_&_&_&_&H8).
    rewrite skills_field_parsed in H8. case_decide; congruence.
  - intros io form st <- Hnil Hext Hdob. unfold upload_candidate.
    rewrite bool_decide_eq_true_2 by exact Hext. simpl.
    destruct (date_fromisoformat (form_DOB form)) as [dob|]; [|done].
    destruct (new_CandidateBase _ _ _ _ _ _ _ _ _) as [errs|base] eqn:Hnew.
    + exists errs. split; [reflexivity|].
      apply new_CandidateBase_inl in Hnew as ->.
      apply elem_of_field_errors. do 7 right. by rewrite Hnil.
    + apply new_CandidateBase_inr in Hnew as (_&_&_&_&_&_&_&H8).
      rewrite Hnil in H8. discriminate.
Qed.

Lemma parsed_skills_stored_witness :
  exists detail,
    @upload_candidate ascii_runtime sample_io
      (with_Skills (s2u " , ,") sample_form) (initial_state ∅)
    = (initial_state ∅, HTTPException 422 detail)
    /\ EmptySkills ∈ detail.
Proof.
  apply (proj2 (proj2 (proj2 (@parsed_skills_stored ascii_runtime (s2u " , ,"))))).
  - reflexivity.
  - vm_compute. reflexivity.
  - vm_compute. constructor.
  - vm_compute. discriminate.
Defined.

Section ModelFacts.
Context `{RT : Runtime}.

Lemma str_field_bounds (f : field) (lo hi : Z) (v w : str) :
  str_field f lo hi v = inr w -> lo <= len w <= hi.
Proof.
  unfold str_field. case_match eqn:E; [|discriminate]. intros [= <-].
  apply andb_true_iff in E as [?%Z.leb_le ?%Z.leb_le]. lia.
Qed.

Lemma new_CandidateBase_within_bounds (today : date)
    (f : str) (d : date) (c a q : str) (y : Z) (e : float) (s : list str)
    (b : CandidateBase) :
  new_CandidateBase today f d c a q y e s = inr b -> within_bounds b.
Proof.
  intros H. apply new_CandidateBase_inr in H as (H1&H2&H3&H4&H5&H6&H7&H8).
  apply str_field_bounds in H1, H4, H5.
  apply validate_contact_number_inr in H3 as (H3&H3'&_).
  apply skills_field_inr in H8 as [H8 _]. apply validate_skills_inr in H8 as [H8 H8'].
  unfold year_field in H6. unfold experience_field in H7.
  destruct ((1950 <=? y) && (y <=? 2100)) eqn:E6; [|discriminate].
  destruct (PrimFloat.leb 0 e && PrimFloat.leb e 60) eqn:E7; [|discriminate].
  injection H6 as H6. injection H7 as H7. subst y e.
  apply andb_true_iff in E6 as [?%Z.leb_le ?%Z.leb_le].
  apply andb_true_iff in E7 as [? ?].
  unfold within_bounds. rewrite H3 at 1.
  repeat split; try lia; try done. apply normalize_phone_digits.
Qed.

Lemma field_errors_nil_iff (today : date)
    (f : str) (d : date) (c a q : str) (y : Z) (e : float) (s : list str) :
  field_errors today f d c a q y e s = []
  <-> exists b, new_CandidateBase today f d c a q y e s = inr b.
Proof.
  split.
  - intros Hnil.
    destruct (new_CandidateBase today f d c a q y e s) as [errs|b] eqn:Hnew;
      [|by exists b].
    exfalso. revert Hnew Hnil. unfold new_CandidateBase, field_errors.
    destruct (str_field Full_Name_field 2 100 f); [done|].
    destruct (validate_dob today d); [done|].
    destruct (validate_contact_number c); [done|].
    destruct (str_field Address_field 5 300 a); [done|].
    destruct (str_field Qualification_field 2 120 q); [done|].
    destruct (year_field y); [done|].
    destruct (experience_field e); [done|].
    destruct (skills_field s); done.
  - intros [b Hb]. apply new_CandidateBase_inr in Hb as (H1&H2&H3&H4&H5&H6&H7&H8).
    unfold field_errors. by rewrite H1, H2, H3, H4, H5, H6, H7, H8.
Qed.

End ModelFacts.

(** X3: building a [CandidateBase] either reports every failing field, in
    field order and at least one, or returns a model; the model holds the
    submitted name, date, address, qualification, year and experience as
    given, the contact number reduced to its digits and the skills stripped
    and without blanks, it is within every bound, and its date of birth is
    not after the day of the construction. *)
Theorem new_CandidateBase_all_or_nothing `{RT : Runtime} (today : date)
    (f : str) (d : date) (c a q : str) (y : Z) (e : float) (s : list str) :
  match new_CandidateBase today f d c a q y e s with
  | inl errs => errs = field_errors today f d c a q y e s /\ errs <> []
  | inr b =>
      field_errors today f d c a q y e s = []
      /\ b = {| Full_Name := f; DOB := d; Contact_Number := _normalize_phone c;
                Address := a; Qualification := q; Graduation_Year := y;
                Years_of_Experience := e;
                Skills := map (strip isspace)
                            (filter (fun x => forallb isspace x = false) s) |}
      /\ within_bounds b
      /\ date_gt d today = false
  end.
Proof.
  destruct (new_CandidateBase today f d c a q y e s) as [errs|b] eqn:Hnew.
  - pose proof (new_CandidateBase_inl _ _ _ _ _ _ _ _ _ _ Hnew) as ->.
    split; [reflexivity|]. intros Hnil.
    apply field_errors_nil_iff in Hnil as [b Hb]. congruence.
  - split; [apply field_errors_nil_iff; by exists b|].
    split; [|split; [by eapply new_CandidateBase_within_bounds|]].
    + apply new_CandidateBase_inr in Hnew as (H1&H2&H3&H4&H5&H6&H7&H8).
      apply str_field_inr in H1 as [H1 _], H4 as [H4 _], H5 as [H5 _].
      apply year_field_inr in H6 as [H6 _].
      apply experience_field_inr in H7 as [H7 _].
      apply validate_dob_inr in H2 as [H2 _].
      apply validate_contact_number_inr in H3 as (H3&_).
      apply skills_field_inr in H8 as [H8 _].
      apply validate_skills_inr_eq in H8.
      destruct b; simpl in *. congruence.
    + apply new_CandidateBase_inr in Hnew as (_&H2&_).
      by apply validate_dob_inr in H2 as [_ H2].
Qed.

(** X4: a [CandidateOut] built from a validated [CandidateBase] validates
    the inherited fields a second time; the second pass changes nothing, and
    it fails only with [FutureDate], when the date of birth is after the day
    of the second construction. *)
Theorem CandidateOut_keeps_base `{RT : Runtime} (today today' : date)
    (f : str) (d : date) (c a q : str) (y : Z) (e : float) (s : list str)
    (b : CandidateBase) (id : Z) (filename path : str) (created : datetime) :
  new_CandidateBase today f d c a q y e s = inr b ->
  new_CandidateOut today' id b filename path created
  = if date_gt (DOB b) today' then inl [FutureDate]
    else inr {| out_base := b; out_id := id; resume_filename := filename;
                resume_path := path; created_at := created |}.
Proof.
  intros Hb. unfold new_CandidateOut.
  rewrite (new_CandidateBase_again _ today' _ _ _ _ _ _ _ _ _ Hb).
  by destruct (date_gt (DOB b) today').
Qed.

Lemma CandidateOut_keeps_base_witness :
  @new_CandidateOut ascii_runtime (mkdate 2026 1 14) 1
    {| Full_Name := s2u "Asha Menon"; DOB := mkdate 2026 1 15;
       Contact_Number := s2u "919876543210";
       Address := s2u "12 Lake Road, Kochi"; Qualification := s2u "B.Tech";
       Graduation_Year := 2021; Years_of_Experience := 2.5%float;
       Skills := [s2u "Python"] |}
    (s2u "cv.pdf") (s2u "uploads/cv.pdf") 0
  = inl [FutureDate].
Proof.
  rewrite (@CandidateOut_keeps_base ascii_runtime (mkdate 2026 1 15)
             (mkdate 2026 1 14) (s2u "Asha Menon") (mkdate 2026 1 15)
             (s2u "+91 98765 43210") (s2u "12 Lake Road, Kochi") (s2u "B.Tech")
             2021 2.5%float [s2u " Python "]).
  - reflexivity.
  - vm_compute. reflexivity.
Defined.

(** X5: a record returned by [upload_candidate] can be fetched: looking up
    its id answers the same record, the unfiltered listing shows it, its id
    is the counter value the request found, its creation time is the clock
    reading, and it holds the submitted name, address, qualification, year
    and experience as given and the parsed date. *)
Theorem upload_then_get `{RT : Runtime}
    (io : upload_io) (form : upload_form) (st st' : state) (c : CandidateOut) :
  upload_candidate io form st = (st', Returned c) ->
  get_candidate (out_id c) st' = Returned c
  /\ c ∈ list_candidates None None None st'
  /\ out_id c = NEXT_ID st
  /\ created_at c = utcnow io
  /\ Full_Name (out_base c) = form_Full_Name form
  /\ date_fromisoformat (form_DOB form) = Some (DOB (out_base c))
  /\ Address (out_base c) = form_Address form
  /\ Qualification (out_base c) = form_Qualification form
  /\ Graduation_Year (out_base c) = form_Graduation_Year form
  /\ Years_of_Experience (out_base c) = form_Years_of_Experience form.
Proof.
  intros Hup.
  apply upload_candidate_Returned in Hup
    as (dob&base&content&_&Hdob&Hbase&_&_&_&Hc&->).
  assert (dict_get (out_id c) (dict_set (NEXT_ID st) c (CANDIDATES st)) = Some c)
    as Hget by (rewrite Hc at 1; apply dict_get_set_eq).
  split; [unfold get_candidate; cbn [CANDIDATES]; by rewrite Hget|].
  split.
  { apply list_candidates_all, elem_of_dict_values. exists (out_id c).
    by apply dict_get_Some_elem. }
  apply new_CandidateBase_inr in Hbase as (H1&H2&_&H4&H5&H6&H7&_).
  apply str_field_inr in H1 as [H1 _], H4 as [H4 _], H5 as [H5 _].
  apply year_field_inr in H6 as [H6 _].
  apply experience_field_inr in H7 as [H7 _].
  apply validate_dob_inr in H2 as [H2 _].
  rewrite Hc. simpl. rewrite Hdob. repeat split; congruence.
Qed.

Lemma upload_then_get_witness :
  exists c, first_upload.2 = Returned c
            /\ get_candidate 1 first_upload.1 = Returned c.
Proof.
  assert (exists c, first_upload = (first_upload.1, Returned c)) as [c Hc]
    by (vm_compute; eexists; reflexivity).
  exists c. split; [by rewrite Hc|].
  destruct (@upload_then_get ascii_runtime sample_io sample_form
              (initial_state ∅) first_upload.1 c Hc) as (Hget & _ & Hid & _).
  rewrite Hid in Hget. exact Hget.
Defined.

(** X6: a successful upload writes exactly the resume that was read to the
    record's path, touches no other file, moves the counter by one and
    leaves the record of every other id as it was; when ids are allocated by
    the service the new record is added after all existing ones. *)
Theorem upload_frame `{RT : Runtime}
    (io : upload_io) (form : upload_form) (st st' : state) (c : CandidateOut) :
  upload_candidate io form st = (st', Returned c) ->
  files st' !! resume_path c = Resume_read io
  /\ (forall p, p <> resume_path c -> files st' !! p = files st !! p)
  /\ NEXT_ID st' = NEXT_ID st + 1
  /\ (forall k, k <> out_id c ->
        dict_get k (CANDIDATES st') = dict_get k (CANDIDATES st))
  /\ (ids_allocated st -> CANDIDATES st' = CANDIDATES st ++ [(out_id c, c)]).
Proof.
  intros Hup.
  apply upload_candidate_Returned in Hup
    as (dob&base&content&_&_&_&Hread&_&_&Hc&->).
  cbn [files NEXT_ID CANDIDATES].
  assert (resume_path c = stored_path_of (Resume_filename form) st) as Hp
    by (by rewrite Hc).
  assert (out_id c = NEXT_ID st) as Hid by (by rewrite Hc).
  rewrite Hp, Hid. split; [by rewrite lookup_insert_eq|].
  split; [intros p Hne; by apply lookup_insert_ne|].
  split; [reflexivity|]. split.
  - intros k Hk. by apply dict_get_set_ne.
  - intros Hids. apply dict_set_absent. by apply ids_allocated_fresh.
Qed.

Lemma upload_frame_witness :
  NEXT_ID first_upload.1 = 2
  /\ files first_upload.1 !! s2u "uploads/cv.pdf"
     = Some [Byte.x25; Byte.x50; Byte.x44; Byte.x46].
Proof.
  assert (exists c, first_upload = (first_upload.1, Returned c)
                    /\ resume_path c = s2u "uploads/cv.pdf") as (c & Hc & Hp)
    by (vm_compute; eexists; split; reflexivity).
  destruct (@upload_frame ascii_runtime sample_io sample_form
              (initial_state ∅) first_upload.1 c Hc) as (Hfile & _ & Hn & _).
  split; [exact Hn|]. rewrite <- Hp. exact Hfile.
Defined.

(** ** Ids, answers and the store over time *)

Section DictMore.
Context {V : Type}.
Implicit Types (d : list (Z * V)) (k : Z) (v : V).

Lemma elem_of_dict_set k v k' v' d :
  (k', v') ∈ dict_set k v d -> (k', v') = (k, v) \/ (k', v') ∈ d.
Proof.
  induction d as [|[k0 v0] d IH]; simpl.
  - rewrite list_elem_of_singleton. by left.
  - destruct (k0 =? k); rewrite !elem_of_cons; [tauto|].
    intros [H|H]; [tauto|]. apply IH in H. tauto.
Qed.

Lemma dict_get_Some_iff k v d :
  NoDup (map fst d) -> dict_get k d = Some v <-> (k, v) ∈ d.
Proof.
  intros Hnd. split; [apply dict_get_Some_elem|].
  induction d as [|[k0 v0] d IH]; [by intros ?%elem_of_nil|].
  simpl in *. apply NoDup_cons in Hnd as [Hk0 Hnd].
  rewrite elem_of_cons. intros [[= -> ->]|Hin].
  - by rewrite Z.eqb_refl.
  - destruct (k0 =? k) eqn:E; [|by apply IH].
    apply Z.eqb_eq in E as ->. exfalso. apply Hk0.
    change (map fst d) with (fst <$> d). apply list_elem_of_fmap.
    by exists (k, v).
Qed.

End DictMore.

Section Histories.
Context `{RT : Runtime}.

Lemma upload_candidate_NEXT_ID (io : upload_io) (form : upload_form) (st : state) :
  NEXT_ID st <= NEXT_ID (upload_candidate io form st).1.
Proof.
  destruct (upload_candidate io form st) as [st' [c|status detail|]] eqn:E; simpl.
  - apply upload_candidate_Returned in E as (?&?&?&_&_&_&_&_&_&_&->). simpl. lia.
  - apply upload_candidate_HTTPException in E as ->. lia.
  - apply upload_candidate_Uncaught in E as [base E].
    apply store_candidate_Uncaught in E as (_ & -> & _). lia.
Qed.

Lemma step_NEXT_ID (st st' : state) : step st st' -> NEXT_ID st <= NEXT_ID st'.
Proof.
  intros [io form st0 | io k st0].
  - apply upload_candidate_NEXT_ID.
  - destruct (delete_candidate_store io k st0) as [_ ->]. lia.
Qed.

Lemma rtc_step_NEXT_ID (st st' : state) :
  rtc step st st' -> NEXT_ID st <= NEXT_ID st'.
Proof.
  induction 1 as [|st1 st2 st3 H12 _ IH]; [lia|].
  apply step_NEXT_ID in H12. lia.
Qed.

Lemma reachable_rtc (st st' : state) :
  reachable st -> rtc step st st' -> reachable st'.
Proof. intros [fs H] H'. exists fs. by etrans. Qed.

(** What holds of every record an upload returns holds of every record in
    the store. *)
Lemma reachable_records (P : CandidateOut -> Prop) :
  (forall io form st st' c,
     upload_candidate io form st = (st', Returned c) -> P c) ->
  forall st, reachable st -> forall k c, (k, c) ∈ CANDIDATES st -> P c.
Proof.
  intros HP st [fs Hrtc]. revert st Hrtc.
  apply (rtc_ind_r (fun st => forall k c, (k, c) ∈ CANDIDATES st -> P c)).
  - by intros k c ?%elem_of_nil.
  - intros st1 st2 _ Hstep IH k c.
    destruct Hstep as [io form st0 | io id st0].
    + destruct (upload_candidate io form st0) as [st' [c'|status detail|]] eqn:E;
        simpl.
      * pose proof (HP _ _ _ _ _ E) as Hc'.
        apply upload_candidate_Returned in E as (?&?&?&_&_&_&_&_&_&_&->).
        simpl. intros [[= _ ->]|Hin]%elem_of_dict_set; [exact Hc' | by eapply IH].
      * apply upload_candidate_HTTPException in E as ->. apply IH.
      * apply upload_candidate_Uncaught in E as [base E].
        apply store_candidate_Uncaught in E as (-> & _). apply IH.
    + destruct (delete_candidate_store io id st0) as [-> _].
      intros [_ Hin]%elem_of_dict_remove. by eapply IH.
Qed.

End Histories.

(** X7: ids are never handed out twice.  Whatever uploads and deletions
    happen after a state of the service, a later successful upload gets an id
    that is at least the counter of that state, hence above every id stored
    in it (deleted since or not), and that no record of the current store
    has. *)
Theorem ids_never_reused `{RT : Runtime}
    (st st' st'' : state) (io : upload_io) (form : upload_form) (c : CandidateOut) :
  reachable st -> rtc step st st' ->
  upload_candidate io form st' = (st'', Returned c) ->
  NEXT_ID st <= out_id c
  /\ (forall k c0, (k, c0) ∈ CANDIDATES st -> k < out_id c)
  /\ dict_get (out_id c) (CANDIDATES st') = None.
Proof.
  intros Hst Hrtc Hup.
  pose proof (reachable_ids_allocated _ Hst) as (_ & _ & Hids).
  pose proof (reachable_ids_allocated _ (reachable_rtc _ _ Hst Hrtc)) as Hst'.
  apply rtc_step_NEXT_ID in Hrtc.
  apply upload_candidate_Returned in Hup as (?&?&?&_&_&_&_&_&_&->&_). simpl.
  split; [exact Hrtc|]. split; [|by apply ids_allocated_fresh].
  intros k c0 Hin. apply Hids in Hin. lia.
Qed.

Lemma ids_never_reused_witness :
  exists c, upload_after_delete.2 = Returned c /\ 1 < out_id c.
Proof.
  assert (exists c, upload_after_delete = (upload_after_delete.1, Returned c))
    as [c Hc] by (vm_compute; eexists; reflexivity).
  assert (exists c1, (1, c1) ∈ CANDIDATES first_upload.1) as [c1 Hc1]
    by (vm_compute; eexists; constructor).
  exists c. split; [by rewrite Hc|].
  assert (@reachable ascii_runtime first_upload.1) as Hreach.
  { exists ∅. apply rtc_once. apply (@step_upload ascii_runtime). }
  assert (rtc (@step ascii_runtime) first_upload.1 first_deleted.1) as Hrtc.
  { apply rtc_once. apply (@step_delete ascii_runtime). }
  destruct (@ids_never_reused ascii_runtime _ _ _ _ _ _ Hreach Hrtc Hc)
    as (_ & Hlt & _).
  exact (Hlt 1 c1 Hc1).
Defined.

(** X8: the checks of [upload_candidate] come in stages, and an answer
    given by a check leaves the state as it was.  With an allowed file type,
    a date that does not parse is answered 422 with [InvalidDateFormat]
    alone, whatever the other fields hold; with a date that parses, failing
    fields are answered 422 with all their failures; and with no failing
    field the request is past every check. *)
Theorem upload_rejections `{RT : Runtime}
    (io : upload_io) (form : upload_form) (st : state) :
  (forall st' status detail,
     upload_candidate io form st = (st', HTTPException status detail) -> st' = st)
  /\ (Resume_ext form ∈ ALLOWED_EXTENSIONS ->
      date_fromisoformat (form_DOB form) = None ->
      upload_candidate io form st = (st, HTTPException 422 [InvalidDateFormat]))
  /\ (forall dob,
        Resume_ext form ∈ ALLOWED_EXTENSIONS ->
        date_fromisoformat (form_DOB form) = Some dob ->
        (field_errors (today_base io) (form_Full_Name form) dob
           (form_Contact_Number form) (form_Address form) (form_Qualification form)
           (form_Graduation_Year form) (form_Years_of_Experience form)
           (_parse_skills (form_Skills form)) <> [] ->
         upload_candidate io form st
         = (st, HTTPException 422
                  (field_errors (today_base io) (form_Full_Name form) dob
                     (form_Contact_Number form) (form_Address form)
                     (form_Qualification form) (form_Graduation_Year form)
                     (form_Years_of_Experience form)
                     (_parse_skills (form_Skills form)))))
        /\ (field_errors (today_base io) (form_Full_Name form) dob
              (form_Contact_Number form) (form_Address form) (form_Qualification form)
              (form_Graduation_Year form) (form_Years_of_Experience form)
              (_parse_skills (form_Skills form)) = [] ->
            forall status detail,
              (upload_candidate io form st).2 <> HTTPException status detail)).
Proof.
  split; [intros st' status detail; apply upload_candidate_HTTPException|].
  split.
  - intros Hext Hdob. unfold upload_candidate.
    rewrite bool_decide_eq_true_2 by exact Hext. simpl. by rewrite Hdob.
  - intros dob Hext Hdob. unfold upload_candidate.
    rewrite bool_decide_eq_true_2 by exact Hext. simpl. rewrite Hdob.
    destruct (new_CandidateBase _ _ _ _ _ _ _ _ _) as [errs|base] eqn:Hnew.
    + pose proof (new_CandidateBase_inl _ _ _ _ _ _ _ _ _ _ Hnew) as ->.
      split; [reflexivity|]. intros Hnil.
      apply field_errors_nil_iff in Hnil as [b Hb]. congruence.
    + split.
      * intros Herr. exfalso. apply Herr, field_errors_nil_iff. by exists base.
      * intros _. apply store_candidate_answer.
Qed.

Lemma upload_rejections_witness :
  @upload_candidate ascii_runtime sample_io
    (with_DOB (s2u "12/04/1999") (with_Skills [] sample_form)) (initial_state ∅)
  = (initial_state ∅, HTTPException 422 [InvalidDateFormat]).
Proof.
  apply (proj1 (proj2 (@upload_rejections ascii_runtime sample_io _ _))).
  - vm_compute. constructor.
  - vm_compute. reflexivity.
Defined.

(** ** Looking up and listing *)

(** X9: in a state of the service, looking up an id answers a record
    exactly when the unfiltered listing shows a record with that id, and it
    is that record; it answers [NotFound] exactly when no listed record has
    the id. *)
Theorem lookup_agrees_with_listing `{RT : Runtime}
    (st : state) (candidate_id : Z) :
  ids_allocated st ->
  (forall c, get_candidate candidate_id st = Returned c
             <-> c ∈ list_candidates None None None st /\ out_id c = candidate_id)
  /\ (get_candidate candidate_id st = HTTPException 404 [NotFound]
      <-> forall c, c ∈ list_candidates None None None st ->
                    out_id c <> candidate_id).
Proof.
  intros (Hnd & _ & Hids).
  assert (forall c, dict_get candidate_id (CANDIDATES st) = Some c
                    <-> c ∈ list_candidates None None None st
                        /\ out_id c = candidate_id) as Hget.
  { intros c. rewrite list_candidates_all, elem_of_dict_values,
      (dict_get_Some_iff _ _ _ Hnd). split.
    - intros Hin. split; [by exists candidate_id | by apply Hids in Hin as [? _]].
    - intros [[k Hin] Hid]. pose proof (Hids _ _ Hin) as [Hk _]. congruence. }
  unfold get_candidate. split.
  - intros c. rewrite <- Hget.
    destruct (dict_get candidate_id (CANDIDATES st)); split; congruence.
  - destruct (dict_get candidate_id (CANDIDATES st)) as [c|] eqn:E.
    + split; [discriminate|]. intros Hno. exfalso.
      destruct (proj1 (Hget c) eq_refl) as [Hin Hid]. by apply (Hno c).
    + split; [|done]. intros _ c Hin Hid.
      assert (None = Some c) by (by apply Hget). discriminate.
Qed.

Lemma lookup_agrees_with_listing_witness :
  get_candidate 7 first_upload.1 = HTTPException 404 [NotFound]
  <-> forall c, c ∈ @list_candidates ascii_runtime None None None first_upload.1 ->
                out_id c <> 7.
Proof.
  apply (@lookup_agrees_with_listing ascii_runtime).
  apply (@ids_allocated_upload ascii_runtime), ids_allocated_initial.
Defined.

Lemma insert_desc_Permutation (c : CandidateOut) (l : list CandidateOut) :
  insert_desc c l ≡ₚ c :: l.
Proof.
  induction l as [|x l IH]; simpl; [done|].
  destruct (created_at x >? created_at c); [|done].
  rewrite IH. apply Permutation_swap.
Qed.

Lemma sort_created_desc_Permutation (l : list CandidateOut) :
  sort_created_desc l ≡ₚ l.
Proof.
  induction l as [|x l IH]; simpl; [done|].
  by rewrite insert_desc_Permutation, IH.
Qed.

Lemma insert_desc_sorted (c : CandidateOut) (l : list CandidateOut) :
  StronglySorted (fun a b => created_at b <= created_at a) l ->
  StronglySorted (fun a b => created_at b <= created_at a) (insert_desc c l).
Proof.
  induction 1 as [|x l Hl IH Hx]; simpl.
  - repeat constructor.
  - destruct (created_at x >? created_at c) eqn:E.
    + apply Z.gtb_lt in E. constructor; [exact IH|].
      apply Forall_forall. intros y Hy.
      apply elem_of_insert_desc in Hy as [->|Hy]; [lia|].
      rewrite Forall_forall in Hx. by apply Hx.
    + rewrite Z.gtb_ltb in E. apply Z.ltb_ge in E.
      constructor; [by constructor|].
      constructor; [exact E|].
      eapply Forall_impl; [exact Hx|]. simpl. intros y Hy. lia.
Qed.

Lemma sort_created_desc_sorted (l : list CandidateOut) :
  StronglySorted (fun a b => created_at b <= created_at a) (sort_created_desc l).
Proof.
  induction l as [|x l IH]; simpl; [constructor | by apply insert_desc_sorted].
Qed.

Lemma insert_desc_filter_time (t : datetime) (c : CandidateOut)
    (l : list CandidateOut) :
  filter (fun x => created_at x = t) (insert_desc c l)
  = filter (fun x => created_at x = t) (c :: l).
Proof.
  induction l as [|x l IH]; simpl; [done|].
  destruct (created_at x >? created_at c) eqn:E; [|done].
  apply Z.gtb_lt in E.
  rewrite (filter_cons _ x), IH, !(filter_cons _ c), !(filter_cons _ x).
  destruct (decide (created_at c = t)), (decide (created_at x = t));
    try reflexivity. lia.
Qed.

Lemma sort_created_desc_filter_time (t : datetime) (l : list CandidateOut) :
  filter (fun x => created_at x = t) (sort_created_desc l)
  = filter (fun x => created_at x = t) l.
Proof.
  induction l as [|x l IH]; simpl; [done|].
  by rewrite insert_desc_filter_time, !filter_cons, IH.
Qed.

(** X10: a listing is in descending order of creation time, whatever the
    filters; the unfiltered listing shows every stored record exactly as
    often as it is stored, and in it records created at the same time stay
    in the order they have in the store. *)
Theorem listing_newest_first `{RT : Runtime}
    (skill : option str) (m : option float) (y : option Z) (st : state) :
  StronglySorted (fun a b => created_at b <= created_at a)
    (list_candidates skill m y st)
  /\ list_candidates None None None st ≡ₚ dict_values (CANDIDATES st)
  /\ (forall t,
        filter (fun x => created_at x = t) (list_candidates None None None st)
        = filter (fun x => created_at x = t) (dict_values (CANDIDATES st))).
Proof.
  split; [apply sort_created_desc_sorted|].
  split; [apply sort_created_desc_Permutation|].
  intros t. apply sort_created_desc_filter_time.
Qed.

Section ListingFacts.
Context `{RT : Runtime}.

Lemma has_skill_iff (s : str) (c : CandidateOut) :
  has_skill s c = true <-> exists x, x ∈ Skills (out_base c) /\ lower x = s.
Proof.
  unfold has_skill. rewrite existsb_exists. split.
  - intros (x & Hin & Hx). exists x. split; [by apply list_elem_of_In|].
    by apply bool_decide_eq_true in Hx.
  - intros (x & Hin & Hx). exists x. split; [by apply list_elem_of_In|].
    by apply bool_decide_eq_true.
Qed.

End ListingFacts.

(** X11: a listing shows exactly the stored records that pass every filter
    given: a skill filter that is not the empty string keeps the records
    with a skill whose lower-case form is the lower-case form of the stripped
    filter; a minimum experience keeps the records with at least that much;
    a graduation year keeps the records of that year.  An empty skill string
    filters nothing. *)
Theorem listing_filters `{RT : Runtime}
    (skill : option str) (m : option float) (y : option Z) (st : state)
    (x : CandidateOut) :
  x ∈ list_candidates skill m y st <->
    x ∈ dict_values (CANDIDATES st)
    /\ match skill with
       | Some (ch :: sk) =>
           exists s, s ∈ Skills (out_base x)
                     /\ lower s = lower (strip isspace (ch :: sk))
       | _ => True
       end
    /\ match m with
       | Some v => PrimFloat.leb v (Years_of_Experience (out_base x)) = true
       | None => True
       end
    /\ match y with
       | Some g => Graduation_Year (out_base x) = g
       | None => True
       end.
Proof.
  unfold list_candidates. rewrite elem_of_sort_created_desc.
  destruct y as [g|]; [rewrite list_elem_of_filter|];
    (destruct m as [v|]; [rewrite list_elem_of_filter|]);
    (destruct skill as [[|ch sk]|]; simpl;
       [|rewrite list_elem_of_filter, has_skill_iff|]); tauto.
Qed.

(** ** Stored records *)

(** X12: every record in the store of the service is within the bounds of
    [CandidateBase]: name, address and qualification lengths, graduation
    year and experience ranges, a contact number of 10 to 15 digits, and at
    least one skill, each stripped and not blank, no two equal in lower
    case. *)
Theorem stored_records_valid `{RT : Runtime} (st : state)
    (k : Z) (c : CandidateOut) :
  reachable st -> (k, c) ∈ CANDIDATES st ->
  within_bounds (out_base c) /\ NoDup (map lower (Skills (out_base c))).
Proof.
  intros Hst. revert k c.
  apply (reachable_records
           (fun c => within_bounds (out_base c)
                     /\ NoDup (map lower (Skills (out_base c))))); [|exact Hst].
  intros io form st0 st' c Hup.
  apply upload_candidate_Returned in Hup
    as (dob&base&content&_&_&Hbase&_&_&_&->&_).
  simpl. split; [by eapply new_CandidateBase_within_bounds|].
  apply new_CandidateBase_inr in Hbase as (_&_&_&_&_&_&_&H8).
  rewrite skills_field_parsed in H8. case_decide; [discriminate|].
  injection H8 as <-. rewrite parse_skills_first_seen. apply first_seen_NoDup.
Qed.

Lemma stored_records_valid_witness :
  exists c, (1, c) ∈ CANDIDATES first_upload.1
            /\ @within_bounds ascii_runtime (out_base c).
Proof.
  assert (exists c, (1, c) ∈ CANDIDATES first_upload.1) as [c Hc]
    by (vm_compute; eexists; constructor).
  exists c. split; [exact Hc|].
  refine (proj1 (@stored_records_valid ascii_runtime first_upload.1 1 c _ Hc)).
  exists ∅. apply rtc_once. apply (@step_upload ascii_runtime).
Defined.

(** ** Deleting, again *)

(** X13: deleting the same id a second time answers [NotFound] and changes
    nothing, whatever happened to the file the first time. *)
Theorem delete_twice (io1 io2 : delete_io) (candidate_id : Z) (st : state) :
  delete_candidate io2 candidate_id (delete_candidate io1 candidate_id st).1
  = ((delete_candidate io1 candidate_id st).1, HTTPException 404 [NotFound]).
Proof.
  apply delete_candidate_absent.
  destruct (delete_candidate_store io1 candidate_id st) as [-> _].
  apply dict_get_remove_eq.
Qed.

Section DictAppend.
Context {V : Type}.

Lemma dict_remove_snoc (k : Z) (v : V) (d : list (Z * V)) :
  dict_get k d = None -> dict_remove k (d ++ [(k, v)]) = d.
Proof.
  induction d as [|[k0 v0] d IH]; simpl.
  - by rewrite Z.eqb_refl.
  - destruct (k0 =? k); [discriminate|]. intros H. by rewrite IH.
Qed.

Lemma dict_get_snoc (k : Z) (v : V) (d : list (Z * V)) :
  dict_get k d = None -> dict_get k (d ++ [(k, v)]) = Some v.
Proof.
  induction d as [|[k0 v0] d IH]; simpl.
  - by rewrite Z.eqb_refl.
  - destruct (k0 =? k); [discriminate|]. exact IH.
Qed.

End DictAppend.

Lemma uploads_prefix_nonempty (x : str) : s2u "uploads/" ++ x <> [].
Proof. intros H. apply (f_equal length) in H. simpl in H. discriminate. Qed.

Lemma stored_path_nonempty (filename : option str) (st : state) :
  stored_path_of filename st <> [].
Proof.
  unfold stored_path_of. rewrite get_unique_save_path_cases.
  unfold preferred_path, suffixed_path.
  case_match; apply uploads_prefix_nonempty.
Qed.

(** X14: deleting the record an upload has just created succeeds and puts
    the store back as it was before the upload; the id is not given back
    (the counter stays one higher), and when [os.remove] does not raise, the
    file system is the one before the upload without a file at the record's
    path. *)
Theorem upload_then_delete `{RT : Runtime}
    (io : upload_io) (dio : delete_io) (form : upload_form)
    (st st' : state) (c : CandidateOut) :
  ids_allocated st ->
  upload_candidate io form st = (st', Returned c) ->
  (delete_candidate dio (out_id c) st').2 = Returned deleted_successfully
  /\ CANDIDATES (delete_candidate dio (out_id c) st').1 = CANDIDATES st
  /\ NEXT_ID (delete_candidate dio (out_id c) st').1 = NEXT_ID st + 1
  /\ (remove_raises dio = false ->
      files (delete_candidate dio (out_id c) st').1
      = delete (resume_path c) (files st)).
Proof.
  intros Hids Hup.
  pose proof (ids_allocated_fresh _ Hids) as Hfresh.
  apply upload_candidate_Returned in Hup
    as (dob&base&content&_&_&_&Hread&_&_&Hc&Hst').
  assert (out_id c = NEXT_ID st) as Hid by (by rewrite Hc).
  assert (NEXT_ID st' = NEXT_ID st + 1) as Hn by (by rewrite Hst').
  assert (CANDIDATES st' = CANDIDATES st ++ [(out_id c, c)]) as Hstore.
  { rewrite Hst', Hid. cbn [CANDIDATES]. by apply dict_set_absent. }
  assert (dict_get (out_id c) (CANDIDATES st') = Some c) as Hget.
  { rewrite Hstore, Hid. by apply dict_get_snoc. }
  rewrite (delete_candidate_present dio _ _ _ Hget). cbn [fst snd CANDIDATES NEXT_ID files].
  split; [reflexivity|].
  split; [rewrite Hstore, Hid; by apply dict_remove_snoc|].
  split; [exact Hn|].
  intros ->.
  assert (resume_path c = stored_path_of (Resume_filename form) st) as Hp
    by (by rewrite Hc).
  rewrite Hst'. cbn [files]. rewrite <- Hp.
  assert (path_exists (<[resume_path c := content]> (files st)) (resume_path c)
          = nonempty (resume_path c)) as ->.
  { rewrite path_exists_insert, bool_decide_eq_true_2 by done.
    destruct (resume_path c); [reflexivity|]. simpl. apply orb_true_r. }
  destruct (nonempty (resume_path c)) eqn:Hne; simpl.
  - apply delete_insert_eq.
  - exfalso. rewrite Hp in Hne. revert Hne.
    by rewrite (proj2 (nonempty_true _) (stored_path_nonempty _ _)).
Qed.

Lemma upload_then_delete_witness :
  CANDIDATES first_deleted.1 = [] /\ NEXT_ID first_deleted.1 = 2.
Proof.
  assert (exists c, first_upload = (first_upload.1, Returned c) /\ out_id c = 1)
    as (c & Hc & Hid) by (vm_compute; eexists; split; reflexivity).
  destruct (@upload_then_delete ascii_runtime sample_io
              {| remove_raises := false |} sample_form (initial_state ∅)
              first_upload.1 c (ids_allocated_initial ∅) Hc)
    as (_ & Hstore & Hn & _).
  rewrite Hid in Hstore, Hn. split; [exact Hstore | exact Hn].
Defined.

(** ** Where the resumes are stored *)

Lemma rfind_from_absent (c : char) (s : str) (i found : Z) :
  c ∉ s -> rfind_from c s i found = found.
Proof.
  revert i. induction s as [|x s IH]; intros i Hc; simpl; [reflexivity|].
  apply not_elem_of_cons in Hc as [Hx Hs].
  rewrite (proj2 (N.eqb_neq x c)) by congruence. by apply IH.
Qed.

Lemma rfind_from_last (c : char) (s1 s2 : str) (i found : Z) :
  c ∉ s2 -> rfind_from c (s1 ++ c :: s2) i found = i + len s1.
Proof.
  intros Hc. revert i found.
  induction s1 as [|x s1 IH]; intros i found; simpl.
  - rewrite N.eqb_refl, rfind_from_absent by exact Hc. unfold len. simpl. lia.
  - rewrite IH. unfold len. simpl length. lia.
Qed.

Lemma basename_uploads (x : str) : 47%N ∉ x -> basename (s2u "uploads/" ++ x) = x.
Proof.
  intros Hx. unfold basename, rfind.
  change (s2u "uploads/" ++ x) with (s2u "uploads" ++ 47%N :: x).
  rewrite rfind_from_last by exact Hx. reflexivity.
Qed.

Lemma uint_digits_Forall (d : Decimal.uint) :
  Forall (fun c => ascii_isdigit c = true) (uint_digits d).
Proof. induction d; simpl; constructor; done. Qed.

Lemma uint_digits_inj (d1 d2 : Decimal.uint) :
  uint_digits d1 = uint_digits d2 -> d1 = d2.
Proof.
  revert d2. induction d1 as [|d1 IH|d1 IH|d1 IH|d1 IH|d1 IH|d1 IH|d1 IH|d1 IH|d1 IH|d1 IH];
    intros [|d2|d2|d2|d2|d2|d2|d2|d2|d2|d2]; simpl; try discriminate;
    try reflexivity; intros [= H]; f_equal; by apply IH.
Qed.

(** [str(n)] consists of digits after an optional minus sign, and distinct
    integers are written differently. *)
Lemma str_of_int_chars (n : Z) :
  Forall (fun c => c = 45%N \/ ascii_isdigit c = true) (str_of_int n).
Proof.
  unfold str_of_int. destruct (Z.to_int n) as [d|d].
  - eapply Forall_impl; [apply uint_digits_Forall|]. by right.
  - constructor; [by left|].
    eapply Forall_impl; [apply uint_digits_Forall|]. by right.
Qed.

Lemma str_of_int_inj (n m : Z) : str_of_int n = str_of_int m -> n = m.
Proof.
  unfold str_of_int. intros H. apply DecimalZ.to_int_inj.
  destruct (Z.to_int n) as [d1|d1], (Z.to_int m) as [d2|d2].
  - f_equal. by apply uint_digits_inj.
  - exfalso. pose proof (uint_digits_Forall d1) as Hd. rewrite H in Hd.
    apply Forall_cons in Hd as [Hd _]. discriminate.
  - exfalso. pose proof (uint_digits_Forall d2) as Hd. rewrite <- H in Hd.
    apply Forall_cons in Hd as [Hd _]. discriminate.
  - injection H as H. f_equal. by apply uint_digits_inj.
Qed.

(** The first occurrence of a character cuts a string in one way only. *)
Lemma first_split_unique (x : char) (l1 r1 l2 r2 : str) :
  x ∉ l1 -> x ∉ l2 -> l1 ++ x :: r1 = l2 ++ x :: r2 -> l1 = l2 /\ r1 = r2.
Proof.
  revert l2. induction l1 as [|a l1 IH]; intros [|b l2] H1 H2; simpl.
  - by intros [= ->].
  - intros [= -> _]. exfalso. apply H2, list_elem_of_here.
  - intros [= -> _]. exfalso. apply H1, list_elem_of_here.
  - intros [= -> H]. apply not_elem_of_cons in H1 as [_ H1], H2 as [_ H2].
    destruct (IH l2 H1 H2 H) as [-> ->]. done.
Qed.

Lemma filename_char_plain (c : char) : filename_char c = true -> plain_char c.
Proof. intros H. repeat split; intros ->; discriminate. Qed.

Lemma splitext_safe_parts (name : str) :
  Forall plain_char (splitext (_safe_filename name)).1
  /\ Forall plain_char (splitext (_safe_filename name)).2.
Proof.
  apply Forall_app. rewrite splitext_app.
  eapply Forall_impl; [apply safe_filename_Forall|]. apply filename_char_plain.
Qed.

Lemma plain_not_elem (x : char) (l : str) :
  (x = 47%N \/ x = 40%N \/ x = 41%N) -> Forall plain_char l -> x ∉ l.
Proof.
  intros Hx Hl Hin. rewrite Forall_forall in Hl.
  destruct (Hl x Hin) as (?&?&?). intuition.
Qed.

Lemma str_of_int_not_elem (x : char) (n : Z) :
  (x = 47%N \/ x = 40%N \/ x = 41%N) -> x ∉ str_of_int n.
Proof.
  intros Hx Hin. pose proof (str_of_int_chars n) as Hn.
  rewrite Forall_forall in Hn. destruct (Hn x Hin) as [-> | Hd].
  - intuition discriminate.
  - destruct Hx as [-> | [-> | ->]]; discriminate.
Qed.

Lemma suffixed_path_split (candidate_id : Z) (name : str) :
  suffixed_path candidate_id name
  = (s2u "uploads/" ++ (splitext (_safe_filename name)).1 ++ [95%N])
    ++ 40%N :: str_of_int candidate_id
    ++ 41%N :: (splitext (_safe_filename name)).2.
Proof. unfold suffixed_path. by rewrite <- !app_assoc. Qed.

Lemma uploads_no_paren : 40%N ∉ s2u "uploads/".
Proof.
  intros H. apply list_elem_of_In in H. simpl in H. intuition discriminate.
Qed.

Lemma preferred_path_no_paren (name : str) : 40%N ∉ preferred_path name.
Proof.
  unfold preferred_path. rewrite elem_of_app. intros [H|H].
  - by apply uploads_no_paren in H.
  - revert H. apply plain_not_elem; [auto|].
    eapply Forall_impl; [apply safe_filename_Forall|]. apply filename_char_plain.
Qed.

Lemma suffixed_path_paren (candidate_id : Z) (name : str) :
  40%N ∈ suffixed_path candidate_id name.
Proof.
  rewrite suffixed_path_split, elem_of_app. right. apply list_elem_of_here.
Qed.

Lemma suffixed_path_eq (i j : Z) (n1 n2 : str) :
  suffixed_path i n1 = suffixed_path j n2 ->
  i = j /\ _safe_filename n1 = _safe_filename n2.
Proof.
  rewrite !suffixed_path_split. intros H.
  destruct (splitext_safe_parts n1) as [Hb1 He1].
  destruct (splitext_safe_parts n2) as [Hb2 He2].
  apply first_split_unique in H as [Hbase Hrest].
  - apply first_split_unique in Hrest as [Hid Hext];
      [|by apply str_of_int_not_elem; auto..].
    split; [by apply str_of_int_inj|].
    apply app_inv_head, app_inv_tail in Hbase.
    by rewrite <- (splitext_app (_safe_filename n1)),
      <- (splitext_app (_safe_filename n2)), Hbase, Hext.
  - rewrite !elem_of_app. intros [H'|[H'|H']].
    + by apply uploads_no_paren in H'.
    + revert H'. by apply plain_not_elem; auto.
    + apply list_elem_of_singleton in H'. discriminate.
  - rewrite !elem_of_app. intros [H'|[H'|H']].
    + by apply uploads_no_paren in H'.
    + revert H'. by apply plain_not_elem; auto.
    + apply list_elem_of_singleton in H'. discriminate.
Qed.

(** X15: the name [_get_unique_save_path] falls back to is never the
    preferred path of any upload, and two such names are equal only for the
    same id and the same safe name; so a collision is resolved to a path that
    no other id is ever resolved to. *)
Theorem suffixed_paths_distinct (i j : Z) (n1 n2 : str) :
  suffixed_path i n1 <> preferred_path n2
  /\ (suffixed_path i n1 = suffixed_path j n2
      <-> i = j /\ _safe_filename n1 = _safe_filename n2)
  /\ (forall fs1 fs2,
        i <> j ->
        path_exists fs1 (preferred_path n1) = true ->
        _get_unique_save_path fs1 i n1 <> _get_unique_save_path fs2 j n2).
Proof.
  assert (suffixed_path i n1 <> preferred_path n2) as Hne.
  { intros H. apply (preferred_path_no_paren n2). rewrite <- H.
    apply suffixed_path_paren. }
  split; [exact Hne|]. split.
  - split; [apply suffixed_path_eq|].
    intros [-> Hsafe]. unfold suffixed_path. by rewrite Hsafe.
  - intros fs1 fs2 Hij Hex. rewrite !get_unique_save_path_cases, Hex.
    destruct (path_exists fs2 (preferred_path n2)); [|exact Hne].
    intros H. by apply suffixed_path_eq in H as [? _].
Qed.

Lemma suffixed_paths_distinct_witness :
  _get_unique_save_path {[ s2u "uploads/cv.pdf" := [] ]} 2 (s2u "cv.pdf")
  <> _get_unique_save_path {[ s2u "uploads/cv.pdf" := [] ]} 3 (s2u "cv.pdf").
Proof.
  apply (proj2 (proj2 (suffixed_paths_distinct 2 3 (s2u "cv.pdf") (s2u "cv.pdf")))).
  - discriminate.
  - vm_compute. reflexivity.
Defined.

Section Location.
Context `{RT : Runtime}.

(** An upload without a file name does not pass the file type check. *)
Lemma Resume_ext_allowed_named (form : upload_form) :
  Resume_ext form ∈ ALLOWED_EXTENSIONS ->
  exists name, Resume_filename form = Some name /\ name <> [].
Proof.
  unfold Resume_ext. intros Hext.
  destruct (Resume_filename form) as [[|ch name]|] eqn:E.
  - exfalso. apply list_elem_of_In in Hext. vm_compute in Hext.
    intuition discriminate.
  - by eexists.
  - exfalso. apply list_elem_of_In in Hext. vm_compute in Hext.
    intuition discriminate.
Qed.

(** The name part of a resolved path. *)
Lemma get_unique_save_path_name (fs : filesystem) (candidate_id : Z) (name : str) :
  exists x,
    _get_unique_save_path fs candidate_id name = s2u "uploads/" ++ x
    /\ (47%N ∉ x) /\ x <> []
    /\ (x = _safe_filename name
        \/ x = (splitext (_safe_filename name)).1 ++ s2u "_("
               ++ str_of_int candidate_id ++ s2u ")"
               ++ (splitext (_safe_filename name)).2).
Proof.
  rewrite get_unique_save_path_cases.
  destruct (splitext_safe_parts name) as [Hb He].
  destruct (path_exists fs (preferred_path name)).
  - eexists. split; [reflexivity|]. split; [|split; [|by right]].
    + rewrite !elem_of_app. intros [H|[H|[H|[H|H]]]].
      * revert H. by apply plain_not_elem; auto.
      * apply list_elem_of_In in H. simpl in H. intuition discriminate.
      * revert H. by apply str_of_int_not_elem; auto.
      * apply list_elem_of_singleton in H. discriminate.
      * revert H. by apply plain_not_elem; auto.
    + intros H. apply (f_equal length) in H. rewrite !length_app in H.
      simpl in H. lia.
  - exists (_safe_filename name). split; [reflexivity|].
    split; [|split; [apply safe_filename_nonempty | by left]].
    apply plain_not_elem; [auto|].
    eapply Forall_impl; [apply safe_filename_Forall|]. apply filename_char_plain.
Qed.

End Location.

(** X16: the resume of a returned record lies directly in the upload
    directory: its path is [uploads/] followed by its file name, which is
    not empty and has no [/] in it, and the file exists when the upload
    returns.  The upload had a file name (the fallback name "resume" is never
    stored), and the stored name is its safe name, or that name with
    [_(id)] before the extension. *)
Theorem stored_under_uploads `{RT : Runtime}
    (io : upload_io) (form : upload_form) (st st' : state) (c : CandidateOut) :
  upload_candidate io form st = (st', Returned c) ->
  resume_path c = s2u "uploads/" ++ resume_filename c
  /\ (47%N ∉ resume_filename c)
  /\ resume_filename c <> []
  /\ path_exists (files st') (resume_path c) = true
  /\ exists name,
       Resume_filename form = Some name /\ name <> []
       /\ (resume_filename c = _safe_filename name
           \/ resume_filename c
              = (splitext (_safe_filename name)).1 ++ s2u "_("
                ++ str_of_int (out_id c) ++ s2u ")"
                ++ (splitext (_safe_filename name)).2).
Proof.
  intros Hup.
  apply upload_candidate_Returned in Hup
    as (dob&base&content&Hext&_&_&_&_&_&->&->).
  apply Resume_ext_allowed_named in Hext as (name & Hname & Hne).
  cbn [resume_path resume_filename out_id files].
  unfold stored_path_of. rewrite Hname.
  replace (filename_or (Some name) (s2u "resume")) with name
    by (by destruct name).
  destruct (get_unique_save_path_name (files st) (NEXT_ID st) name)
    as (x & -> & Hsep & Hx & Hshape).
  rewrite basename_uploads by exact Hsep.
  split; [reflexivity|]. split; [exact Hsep|]. split; [exact Hx|].
  split.
  - rewrite path_exists_insert, bool_decide_eq_true_2 by done.
    rewrite (proj2 (nonempty_true _) (uploads_prefix_nonempty x)).
    apply orb_true_r.
  - exists name. auto.
Qed.

Lemma stored_under_uploads_witness :
  resume_filename <$> returned second_upload.2 = Some (s2u "cv_(2).pdf").
Proof.
  assert (exists c, second_upload = (second_upload.1, Returned c)
                    /\ resume_path c = s2u "uploads/cv_(2).pdf")
    as (c & Hc & Hp) by (vm_compute; eexists; split; reflexivity).
  destruct (@stored_under_uploads ascii_runtime sample_io sample_form
              first_upload.1 second_upload.1 c Hc) as (Hpath & _).
  rewrite Hp in Hpath. replace second_upload.2 with (Returned c) by (by rewrite Hc).
  simpl. f_equal. by apply (app_inv_head (s2u "uploads/")).
Defined.

Section Storage.
Context `{RT : Runtime}.

Lemma path_exists_insert_mono (fs : filesystem) (p q : str) (content : bytes) :
  path_exists fs q = true -> path_exists (<[p := content]> fs) q = true.
Proof. intros H. by rewrite path_exists_insert, H. Qed.

Lemma path_exists_delete_ne (fs : filesystem) (p q : str) :
  p <> q -> path_exists (delete p fs) q = path_exists fs q.
Proof.
  intros Hne. destruct q as [|c r]; [reflexivity|]. simpl.
  by rewrite lookup_delete_ne.
Qed.

(** What [store_candidate] does to the files: nothing, or one write at the
    path it resolved. *)
Lemma upload_candidate_files (io : upload_io) (form : upload_form) (st : state) :
  files (upload_candidate io form st).1 = files st
  \/ exists data,
       files (upload_candidate io form st).1
       = <[stored_path_of (Resume_filename form) st := data]> (files st).
Proof.
  destruct (upload_candidate io form st) as [st' [c|status detail|]] eqn:E; simpl.
  - apply upload_candidate_Returned in E as (?&?&content&_&_&_&_&_&_&_&->).
    right. by exists content.
  - apply upload_candidate_HTTPException in E as ->. by left.
  - apply upload_candidate_Uncaught in E as [base E].
    apply store_candidate_Uncaught in E
      as (_ & _ & [[-> _]|[(?&data&_&_&->)|[(data&_&_&_&->)|(data&?&_&_&_&->)]]]);
      eauto.
Qed.

(** The path an upload resolves is held by no stored record. *)
Lemma stored_path_free (filename : option str) (st : state)
    (k : Z) (c : CandidateOut) :
  ids_allocated st -> files_in_place st -> paths_resolved st ->
  (k, c) ∈ CANDIDATES st ->
  resume_path c <> stored_path_of filename st.
Proof.
  intros (_ & _ & Hids) [Hex _] Hshape Hin Heq.
  pose proof (Hex _ _ Hin) as Hthere. rewrite Heq in Hthere.
  destruct (Hshape _ _ Hin) as [name Hname]. rewrite Heq in Hname.
  revert Hthere Hname. unfold stored_path_of.
  rewrite get_unique_save_path_cases.
  destruct (path_exists (files st) (preferred_path _)) eqn:E.
  - intros _ [H|H].
    + revert H. intros H. apply (preferred_path_no_paren name). rewrite <- H.
      apply suffixed_path_paren.
    + apply suffixed_path_eq in H as [H _]. apply Hids in Hin. lia.
  - intros H _. congruence.
Qed.

Lemma storage_initial (fs : filesystem) :
  files_in_place (initial_state fs) /\ paths_resolved (initial_state fs).
Proof.
  split; [split|]; simpl.
  - by intros k c ?%elem_of_nil.
  - by intros k1 c1 k2 c2 ?%elem_of_nil.
  - by intros k c ?%elem_of_nil.
Qed.

Lemma storage_upload (io : upload_io) (form : upload_form) (st : state) :
  ids_allocated st -> files_in_place st -> paths_resolved st ->
  files_in_place (upload_candidate io form st).1
  /\ paths_resolved (upload_candidate io form st).1.
Proof.
  intros Hids Hplace Hshape.
  pose proof (upload_candidate_files io form st) as Hfiles.
  pose proof Hplace as [Hex Hdis].
  destruct (upload_candidate io form st) as [st' [c|status detail|]] eqn:E;
    simpl in *.
  - apply upload_candidate_Returned in E
      as (dob&base&content&_&_&_&_&_&_&Hc&->).
    assert (resume_path c = stored_path_of (Resume_filename form) st) as Hp
      by (by rewrite Hc).
    assert (out_id c = NEXT_ID st) as Hid by (by rewrite Hc).
    unfold files_in_place, paths_resolved. cbn [CANDIDATES files].
    rewrite dict_set_absent by (by apply ids_allocated_fresh).
    split; [split|].
    + intros k c'. rewrite elem_of_app, list_elem_of_singleton.
      intros [Hin|[= -> ->]].
      * apply path_exists_insert_mono. by eapply Hex.
      * rewrite Hp, path_exists_insert, bool_decide_eq_true_2 by done.
        rewrite (proj2 (nonempty_true _) (stored_path_nonempty _ _)).
        apply orb_true_r.
    + intros k1 c1 k2 c2. rewrite !elem_of_app, !list_elem_of_singleton.
      intros [H1|[= -> ->]] [H2|[= -> ->]] Heq.
      * by eapply Hdis.
      * exfalso. rewrite Hp in Heq.
        by eapply (stored_path_free _ st k1 c1).
      * exfalso. rewrite Hp in Heq. symmetry in Heq.
        by eapply (stored_path_free _ st k2 c2).
      * reflexivity.
    + intros k c'. rewrite elem_of_app, list_elem_of_singleton.
      intros [Hin|[= -> ->]]; [by apply Hshape|].
      exists (filename_or (Resume_filename form) (s2u "resume")).
      rewrite Hp. unfold stored_path_of. rewrite get_unique_save_path_cases.
      case_match; auto.
  - apply upload_candidate_HTTPException in E as ->. done.
  - apply upload_candidate_Uncaught in E as [base E].
    apply store_candidate_Uncaught in E as (Hc & _ & _).
    split; [split|].
    + rewrite Hc. intros k c Hin.
      destruct Hfiles as [->|[data ->]]; [by eapply Hex|].
      apply path_exists_insert_mono. by eapply Hex.
    + rewrite Hc. exact Hdis.
    + unfold paths_resolved. rewrite Hc. exact Hshape.
Qed.

Lemma storage_delete (io : delete_io) (candidate_id : Z) (st : state) :
  ids_allocated st -> files_in_place st -> paths_resolved st ->
  files_in_place (delete_candidate io candidate_id st).1
  /\ paths_resolved (delete_candidate io candidate_id st).1.
Proof.
  intros (Hnd & _ & _) [Hex Hdis] Hshape.
  destruct (dict_get candidate_id (CANDIDATES st)) as [c|] eqn:E.
  - rewrite (delete_candidate_present _ _ _ _ E). cbn [fst].
    apply dict_get_Some_elem in E.
    split; [split|]; cbn [CANDIDATES files].
    + intros k c' [Hk Hin]%elem_of_dict_remove.
      pose proof (Hex _ _ Hin) as Hthere.
      destruct (nonempty _ && path_exists _ _), (remove_raises io);
        try exact Hthere.
      rewrite path_exists_delete_ne; [exact Hthere|].
      intros Heq. apply Hk. by eapply Hdis.
    + intros k1 c1 k2 c2 [_ H1]%elem_of_dict_remove [_ H2]%elem_of_dict_remove.
      by eapply Hdis.
    + intros k c' [_ Hin]%elem_of_dict_remove. by apply Hshape.
  - by rewrite (delete_candidate_absent _ _ _ E).
Qed.

Lemma reachable_storage (st : state) :
  reachable st -> files_in_place st /\ paths_resolved st.
Proof.
  intros [fs Hrtc]. revert st Hrtc.
  apply (rtc_ind_r (fun st => files_in_place st /\ paths_resolved st)).
  - apply storage_initial.
  - intros st1 st2 Hrtc Hstep [Hplace Hshape].
    assert (ids_allocated st1) as Hids
      by (apply reachable_ids_allocated; by exists fs).
    destruct Hstep; [by apply storage_upload | by apply storage_delete].
Qed.

End Storage.

Section Suspension.
Context `{RT : Runtime}.

(** A handler that nothing interrupts is its first part followed at once
    by its second. *)
Lemma upload_candidate_split (io : upload_io) (form : upload_form) (st : state) :
  upload_candidate io form st
  = match upload_begin io form st with
    | (st1, inl answered) => (st1, answered)
    | (st1, inr p) => upload_resume io p st1
    end.
Proof.
  unfold upload_candidate, upload_begin.
  destruct (negb _); [reflexivity|].
  destruct (date_fromisoformat _); [|reflexivity].
  destruct (new_CandidateBase _ _ _ _ _ _ _ _ _); reflexivity.
Qed.

End Suspension.

(** When a second upload of the same file name is taken up while the first
    is suspended, both resolve their path before either has written: the
    two records, with ids 1 and 2, are stored with the same path and the
    same file. *)
Lemma overlapping_uploads_share_path :
  (resume_path <$> dict_get 1 (CANDIDATES overlapping_uploads))
  = Some (s2u "uploads/cv.pdf")
  /\ (resume_path <$> dict_get 2 (CANDIDATES overlapping_uploads))
     = Some (s2u "uploads/cv.pdf").
Proof. vm_compute. split; reflexivity. Qed.

(** X17: as long as requests are handled one at a time, every upload being
    resumed before another request runs ([reachable]), every stored record
    has its resume file on disk and no two records share a file; an upload
    that runs without interruption from such a state never writes over the
    file of a stored record, and a deletion removes no file but the deleted
    record's own.  Such an upload is [upload_begin] followed at once by
    [upload_resume]; uploads that overlap at the [await] are not covered
    (see [overlapping_uploads_share_path]). *)
Theorem resumes_in_place `{RT : Runtime} (st : state) :
  reachable st ->
  (forall k c, (k, c) ∈ CANDIDATES st ->
     path_exists (files st) (resume_path c) = true)
  /\ (forall k1 c1 k2 c2,
        (k1, c1) ∈ CANDIDATES st -> (k2, c2) ∈ CANDIDATES st ->
        resume_path c1 = resume_path c2 -> k1 = k2)
  /\ (forall io form k c,
        (k, c) ∈ CANDIDATES st ->
        files (upload_candidate io form st).1 !! resume_path c
        = files st !! resume_path c)
  /\ (forall io candidate_id k c,
        (k, c) ∈ CANDIDATES st -> k <> candidate_id ->
        files (delete_candidate io candidate_id st).1 !! resume_path c
        = files st !! resume_path c)
  /\ (forall io form st1 p,
        upload_begin io form st = (st1, inr p) ->
        upload_candidate io form st = upload_resume io p st1
        /\ forall k c, (k, c) ∈ CANDIDATES st -> resume_path c <> pending_path p).
Proof.
  intros Hst. pose proof (reachable_ids_allocated _ Hst) as Hids.
  destruct (reachable_storage _ Hst) as [Hplace Hshape].
  pose proof Hplace as [Hex Hdis].
  split; [exact Hex|]. split; [exact Hdis|]. split; [|split].
  - intros io form k c Hin.
    destruct (upload_candidate_files io form st) as [->|[data ->]]; [done|].
    apply lookup_insert_ne. intros Heq.
    by eapply (stored_path_free (Resume_filename form) st k c).
  - intros io candidate_id k c Hin Hk.
    destruct (dict_get candidate_id (CANDIDATES st)) as [c0|] eqn:E.
    + rewrite (delete_candidate_present _ _ _ _ E). cbn [fst files].
      destruct (nonempty _ && path_exists _ _), (remove_raises io);
        try reflexivity.
      apply lookup_delete_ne. intros Heq. apply Hk. symmetry.
      apply dict_get_Some_elem in E. by eapply Hdis.
    + by rewrite (delete_candidate_absent _ _ _ E).
  - intros io form st1 p Hbegin. split.
    + by rewrite upload_candidate_split, Hbegin.
    + intros k c Hin.
      assert (pending_path p = stored_path_of (Resume_filename form) st) as ->.
      { revert Hbegin. unfold upload_begin.
        destruct (negb _); [discriminate|].
        destruct (date_fromisoformat _); [|discriminate].
        destruct (new_CandidateBase _ _ _ _ _ _ _ _ _); [discriminate|].
        by intros [= _ <-]. }
      by apply (stored_path_free (Resume_filename form) st k c).
Qed.

Lemma resumes_in_place_witness :
  exists c, (2, c) ∈ CANDIDATES second_upload.1
            /\ path_exists (files second_upload.1) (resume_path c) = true.
Proof.
  assert (exists c, (2, c) ∈ CANDIDATES second_upload.1) as [c Hc]
    by (vm_compute; eexists; repeat constructor).
  exists c. split; [exact Hc|].
  refine (proj1 (@resumes_in_place ascii_runtime second_upload.1 _) 2 c Hc).
  exists ∅. eapply rtc_l; [apply (@step_upload ascii_runtime)|].
  apply rtc_once. apply (@step_upload ascii_runtime).
Defined.

(** ** More on the two normalizers *)

Lemma filter_rev {A} (P : A -> Prop) `{forall x, Decision (P x)} (l : list A) :
  filter P (rev l) = rev (filter P l).
Proof.
  induction l as [|x l IH]; [reflexivity|]. simpl.
  rewrite filter_app, IH, (filter_cons P x l), (filter_cons P x []), filter_nil.
  destruct (decide (P x)); simpl; [reflexivity | by rewrite app_nil_r].
Qed.

Lemma lstrip_filter (p : char -> bool) (s : str) :
  filter (fun c => p c = false) (lstrip p s) = filter (fun c => p c = false) s.
Proof.
  induction s as [|c r IH]; [reflexivity|]. simpl.
  destruct (p c) eqn:E; [|reflexivity].
  rewrite IH, filter_cons_False; [reflexivity | congruence].
Qed.

Lemma strip_filter (p : char -> bool) (s : str) :
  filter (fun c => p c = false) (strip p s) = filter (fun c => p c = false) s.
Proof.
  unfold strip, rstrip.
  by rewrite filter_rev, lstrip_filter, <- filter_rev, rev_involutive, lstrip_filter.
Qed.

Lemma lstrip_length (p : char -> bool) (s : str) :
  (length (lstrip p s) <= length s)%nat.
Proof.
  induction s as [|c r IH]; simpl; [lia|]. destruct (p c); simpl; lia.
Qed.

Lemma strip_length (p : char -> bool) (s : str) :
  (length (strip p s) <= length s)%nat.
Proof.
  unfold strip, rstrip. rewrite length_rev.
  etrans; [apply lstrip_length|]. rewrite length_rev. apply lstrip_length.
Qed.

Lemma re_sub_run_filter (b : bool) (s : str) :
  filter (fun c => is_underscore c = false)
    (re_sub_run not_filename_char (s2u "_") b s)
  = filter (fun c => filename_char c = true /\ is_underscore c = false) s.
Proof.
  revert b. induction s as [|c r IH]; intros b; [reflexivity|].
  cbn [re_sub_run]. unfold not_filename_char at 1.
  rewrite (filter_cons _ c r).
  destruct (filename_char c) eqn:Hc; cbn [negb].
  - rewrite filter_cons, IH.
    destruct (decide (is_underscore c = false)) as [Hu|Hu].
    + by rewrite decide_True.
    + rewrite decide_False; [reflexivity | tauto].
  - rewrite filter_app, IH. rewrite decide_False by (intros []; congruence).
    by destruct b.
Qed.

Lemma re_sub_run_length (b : bool) (s : str) :
  (length (re_sub_run not_filename_char (s2u "_") b s) <= length s)%nat.
Proof.
  revert b. induction s as [|c r IH]; intros b; cbn [re_sub_run length]; [lia|].
  destruct (not_filename_char c).
  - rewrite length_app. specialize (IH true).
    destruct b; [change (length (@nil char)) with 0%nat
                | change (length (s2u "_")) with 1%nat]; lia.
  - cbn [length]. specialize (IH false). lia.
Qed.

(** X18: [_safe_filename] neither drops nor reorders an allowed character
    other than the underscore, and what it makes of a name is never longer
    than the name unless it is the fallback; the names it returns unchanged
    are exactly the non-empty names of allowed characters that neither start
    nor end with an underscore. *)
Theorem safe_filename_keeps_allowed (name : str) :
  filter (fun c => is_underscore c = false) (sanitized_and_trimmed name)
  = filter (fun c => filename_char c = true /\ is_underscore c = false) name
  /\ (length (sanitized_and_trimmed name) <= length name)%nat
  /\ (_safe_filename name = sanitized_and_trimmed name
      \/ _safe_filename name = s2u "resume" /\ sanitized_and_trimmed name = [])
  /\ (_safe_filename name = name
      <-> name <> []
          /\ Forall (fun c => filename_char c = true) name
          /\ head name <> Some 95%N /\ last name <> Some 95%N).
Proof.
  split; [|split; [|split]].
  - unfold sanitized_and_trimmed, re_sub_class_plus.
    by rewrite strip_filter, re_sub_run_filter.
  - unfold sanitized_and_trimmed, re_sub_class_plus.
    etrans; [apply strip_length | apply re_sub_run_length].
  - rewrite safe_filename_cases. case_decide; auto.
  - split.
    + intros Heq.
      pose proof (safe_filename_nonempty name) as H1.
      pose proof (safe_filename_Forall name) as H2.
      pose proof (safe_filename_head name) as H3.
      pose proof (safe_filename_last name) as H4.
      rewrite Heq in H1, H2, H3, H4.
      repeat split; [exact H1 | exact H2 | |].
      * intros H. by apply H3 in H.
      * intros H. by apply H4 in H.
    + intros (H1 & H2 & H3 & H4). apply safe_filename_fixed; [done..| |].
      * intros c Hc. unfold is_underscore. apply N.eqb_neq. congruence.
      * intros c Hc. unfold is_underscore. apply N.eqb_neq. congruence.
Qed.

Section PhoneFacts.
Context `{RT : Runtime}.

Lemma normalize_phone_app (a b : str) :
  _normalize_phone (a ++ b) = _normalize_phone a ++ _normalize_phone b.
Proof. rewrite !normalize_phone_filter. apply filter_app. Qed.

End PhoneFacts.

(** X19: only the digits of a contact number matter.  [_normalize_phone]
    works piece by piece, never lengthens its input and leaves its own
    output alone; two numbers with the same digits are validated alike, and
    the number a record holds passes the validator unchanged. *)
Theorem contact_number_formatting `{RT : Runtime} (v w : str) :
  _normalize_phone (v ++ w) = _normalize_phone v ++ _normalize_phone w
  /\ _normalize_phone (_normalize_phone v) = _normalize_phone v
  /\ len (_normalize_phone v) <= len v
  /\ (_normalize_phone v = _normalize_phone w ->
      validate_contact_number v = validate_contact_number w)
  /\ (validate_contact_number v = inr w -> validate_contact_number w = inr w).
Proof.
  split; [apply normalize_phone_app|].
  split; [apply normalize_phone_idemp|]. split; [|split].
  - rewrite normalize_phone_filter. unfold len.
    apply inj_le, length_filter.
  - intros H. unfold validate_contact_number. by rewrite H.
  - intros H. by apply validate_contact_number_inr in H as (_&_&H).
Qed.

Lemma contact_number_formatting_witness :
  @validate_contact_number ascii_runtime (s2u "+91 98765-43210")
  = @validate_contact_number ascii_runtime (s2u "(919) 876 543 210").
Proof.
  apply (proj1 (proj2 (proj2 (proj2
           (@contact_number_formatting ascii_runtime
              (s2u "+91 98765-43210") (s2u "(919) 876 543 210")))))).
  vm_compute. reflexivity.
Defined.

(** ** Files without a record *)

Section Leftovers.
Context `{RT : Runtime}.



End Leftovers.


